(** * useBigNumberFormatter: a shallow embedding of the display formatter

    The composable [useBigNumberFormatter] turns a raw value (absent, a
    string, a number or an arbitrary-precision decimal) and an options
    record into display strings.  The development has these layers:

    - [Text]: the string primitives the code uses ([repeat], [at(-1)],
      [slice(0, -1)], [replaceAll(',', '')]) and decimal digit strings;
    - [BN]: the parts of bignumber.js the formatter consumes (construction
      from a string, comparison, [minus], [multipliedBy], [shiftedBy],
      [toFixed], [toFormat], [toNumber]), over exact decimals
      [(-1)^neg * c * 10^e] together with NaN and the two infinities;
    - [Intl]: the compact notation of [Intl.NumberFormat] for [en-US];
    - [Formatter]: the functions of the composable itself, under the names
      they have in the source;
    - [Observe]: the vocabulary of the properties;
    - [Metamask]: the validation of the connected wallet;
    - [TextFacts], [BNFacts], [FormatterFacts], [RenderingFacts],
      [MetamaskFacts]: lemmas about each layer and the properties of the
      formatter and of the validation; [Scenarios]: evaluations.

    JavaScript strings are modelled as [string]s of UTF-8 bytes: every
    character the code inspects ([K], [M], [B], [T], [,], [.]) is ASCII. *)

From Stdlib Require Import ZArith NArith QArith Qpower Bool List String Ascii Lia.
Import ListNotations.

Local Open Scope string_scope.
Local Open Scope Z_scope.

(* ------------------------------------------------------------------ *)
(** ** String primitives *)

Module Text.

(** The decimal digit [d] (for [d < 10]) as a character. *)
Definition digitChar (d : N) : ascii := ascii_of_N (48 + d).

Definition isDigit (ch : ascii) : bool :=
  let n := N_of_ascii ch in ((48 <=? n) && (n <=? 57))%N.

Definition digitValue (ch : ascii) : N := (N_of_ascii ch - 48)%N.

(** [ch.repeat(n)] for a one-character string. *)
Fixpoint repeatChar (ch : ascii) (n : nat) : string :=
  match n with
  | O => ""
  | S k => String ch (repeatChar ch k)
  end.

(** [s.at(-1)]: the last character, [None] for the empty string. *)
Fixpoint lastChar (s : string) : option ascii :=
  match s with
  | "" => None
  | String ch "" => Some ch
  | String _ rest => lastChar rest
  end.

(** [s.slice(0, -1)]: everything but the last character. *)
Fixpoint dropLast (s : string) : string :=
  match s with
  | "" => ""
  | String _ "" => ""
  | String ch rest => String ch (dropLast rest)
  end.

(** [s.replaceAll(ch, '')]. *)
Fixpoint removeChar (ch : ascii) (s : string) : string :=
  match s with
  | "" => ""
  | String x rest =>
      if Ascii.eqb x ch then removeChar ch rest
      else String x (removeChar ch rest)
  end.

(** [s.includes(ch)]. *)
Fixpoint includesChar (ch : ascii) (s : string) : bool :=
  match s with
  | "" => false
  | String x rest => Ascii.eqb x ch || includesChar ch rest
  end.

(** The text after the first occurrence of [ch] ([""] when there is none). *)
Fixpoint afterChar (ch : ascii) (s : string) : string :=
  match s with
  | "" => ""
  | String x rest => if Ascii.eqb x ch then rest else afterChar ch rest
  end.

(** Decimal digits of [n], most significant first, without leading zeros
    (["0"] for zero).  The fuel is the bit size of [n], which bounds the
    number of its decimal digits. *)
Fixpoint digitsAux (fuel : nat) (n : N) (acc : string) : string :=
  match fuel with
  | O => acc
  | S f =>
      let acc' := String (digitChar (n mod 10)) acc in
      if (n / 10 =? 0)%N then acc' else digitsAux f (n / 10)%N acc'
  end.

Definition digitsN (n : N) : string := digitsAux (S (N.size_nat n)) n "".

(** The [k] low-order decimal digits of [r], zero-padded on the left. *)
Fixpoint digitsFixed (k : nat) (r : N) : string :=
  match k with
  | O => ""
  | S k' => digitsFixed k' (r / 10)%N ++ String (digitChar (r mod 10)) ""
  end.

(** Value of a string of decimal digits. *)
Fixpoint digitsValue (acc : N) (s : string) : N :=
  match s with
  | "" => acc
  | String ch rest => digitsValue (10 * acc + digitValue ch)%N rest
  end.

(** Longest prefix of decimal digits, and the rest. *)
Fixpoint spanDigits (s : string) : string * string :=
  match s with
  | "" => ("", "")
  | String ch rest =>
      if isDigit ch then let (ds, r) := spanDigits rest in (String ch ds, r)
      else ("", s)
  end.

(** Thousands grouping of a digit string: a separator before every group of
    three digits counted from the right. [i] is the number of digits still
    to emit before the next separator. *)
Fixpoint groupFrom (s : string) (i : nat) : string :=
  match s with
  | "" => ""
  | String ch rest =>
      match i with
      | O => String "," (String ch (groupFrom rest 2))
      | S i' => String ch (groupFrom rest i')
      end
  end.

Definition group3 (s : string) : string :=
  let r := Nat.modulo (String.length s) 3 in
  groupFrom s (match r with O => 3%nat | _ => r end).

(** Number of decimal digits of [n] ([1] for zero). *)
Definition numDigits (n : N) : Z := Z.of_nat (String.length (digitsN n)).

End Text.

(* ------------------------------------------------------------------ *)
(** ** The decimal type consumed by the formatter (bignumber.js) *)

Module BN.
Import Text.

(** [BigNumber.RoundingMode], in the numbering of the library (0 to 8). *)
Inductive RoundingMode : Set :=
| ROUND_UP | ROUND_DOWN | ROUND_CEIL | ROUND_FLOOR
| ROUND_HALF_UP | ROUND_HALF_DOWN | ROUND_HALF_EVEN
| ROUND_HALF_CEIL | ROUND_HALF_FLOOR.

(** A BigNumber is NaN, an infinity, or the exact decimal
    [(-1)^neg * c * 10^e].  The sign is kept apart from the coefficient
    because the library has a negative zero.  The representation is not
    normalised: trailing zeros of [c] are stripped where the library's
    output depends on it ([toFixedExact]). *)
Inductive BigNumber : Set :=
| NaN
| Infinity (neg : bool)
| Finite (neg : bool) (c : N) (e : Z).

(** A JavaScript number is modelled by the decimal its shortest
    round-tripping rendering denotes; this is the value both
    [new BigNumber(number)] and the number formatter work from. *)
Definition JSNumber : Set := BigNumber.

Definition ofN (n : N) : BigNumber := Finite false n 0.

(** *** Construction from a string

    [new BigNumber(str)] for the library's decimal syntax (an optional
    minus sign; digits with an optional point and further digits, or a
    point followed by digits; an optional exponent [e] with an optional
    sign and digits) and for [Infinity] and [NaN] with an optional minus
    sign; any other text is not a number and gives NaN
    (the library only throws in its debug mode, which is off).  The
    library's further leniency (surrounding white space, a leading plus,
    radix prefixes) is left out. *)
Definition parseExponent (s : string) : option Z :=
  match s with
  | "" => Some 0
  | String ch r =>
      if Ascii.eqb ch "e" || Ascii.eqb ch "E" then
        let '(neg, r') :=
          match r with
          | String "-" t => (true, t)
          | String "+" t => (false, t)
          | _ => (false, r)
          end in
        let (ds, rest) := spanDigits r' in
        match ds, rest with
        | String _ _, "" =>
            let v := Z.of_N (digitsValue 0 ds) in
            Some (if neg then - v else v)
        | _, _ => None
        end
      else None
  end.

Definition ofString (s : string) : BigNumber :=
  if (s =? "NaN")%string || (s =? "-NaN")%string then NaN
  else if (s =? "Infinity")%string then Infinity false
  else if (s =? "-Infinity")%string then Infinity true
  else
    let '(neg, body) :=
      match s with
      | String "-" r => (true, r)
      | _ => (false, s)
      end in
    let (ip, r1) := spanDigits body in
    let '(hasDot, fp, r2) :=
      match r1 with
      | String "." r => let (fp, r2) := spanDigits r in (true, fp, r2)
      | _ => (false, "", r1)
      end in
    let mantissaOk :=
      match ip with
      | "" => hasDot && negb (fp =? "")%string
      | _ => true
      end in
    match parseExponent r2 with
    | Some ex =>
        if mantissaOk
        then Finite neg (digitsValue 0 (ip ++ fp))
                    (ex - Z.of_nat (String.length fp))
        else NaN
    | None => NaN
    end.

(** *** Predicates and comparison *)

Definition isNaN (x : BigNumber) : bool :=
  match x with NaN => true | _ => false end.

Definition isZero (x : BigNumber) : bool :=
  match x with Finite _ c _ => (c =? 0)%N | _ => false end.

Definition isFinite (x : BigNumber) : bool :=
  match x with Finite _ _ _ => true | _ => false end.

Definition abs (x : BigNumber) : BigNumber :=
  match x with
  | NaN => NaN
  | Infinity _ => Infinity false
  | Finite _ c e => Finite false c e
  end.

(** The signed coefficient [(-1)^neg * c]. *)
Definition signed (neg : bool) (c : N) : Z :=
  if neg then - Z.of_N c else Z.of_N c.

(** The signed coefficient of a finite value rescaled to the exponent
    [m], for [m <= e]: the integer [(-1)^neg * c * 10^(e - m)]. *)
Definition scaled (neg : bool) (c : N) (e m : Z) : Z :=
  signed neg c * 10 ^ (e - m).

(** [x.comparedTo(y)]: [None] when either side is NaN. *)
Definition compare (x y : BigNumber) : option comparison :=
  match x, y with
  | NaN, _ | _, NaN => None
  | Infinity a, Infinity b =>
      Some (match a, b with
            | true, false => Lt
            | false, true => Gt
            | _, _ => Eq
            end)
  | Infinity a, Finite _ _ _ => Some (if a then Lt else Gt)
  | Finite _ _ _, Infinity b => Some (if b then Gt else Lt)
  | Finite a c1 e1, Finite b c2 e2 =>
      let m := Z.min e1 e2 in
      Some (scaled a c1 e1 m ?= scaled b c2 e2 m)
  end.

Definition eq (x y : BigNumber) : bool :=
  match compare x y with Some Eq => true | _ => false end.
Definition lt (x y : BigNumber) : bool :=
  match compare x y with Some Lt => true | _ => false end.
Definition lte (x y : BigNumber) : bool :=
  match compare x y with Some Lt | Some Eq => true | _ => false end.
Definition gte (x y : BigNumber) : bool :=
  match compare x y with Some Gt | Some Eq => true | _ => false end.

(** *** Arithmetic (exact: the library rounds only in division, roots and
    powers) *)

(** [x.minus(y)].  A zero difference is [+0] (the library's default
    rounding mode is not [ROUND_FLOOR]) except for [(-0) - (+0)]. *)
Definition minus (x y : BigNumber) : BigNumber :=
  match x, y with
  | NaN, _ | _, NaN => NaN
  | Infinity a, Infinity b => if Bool.eqb a b then NaN else Infinity a
  | Infinity a, Finite _ _ _ => Infinity a
  | Finite _ _ _, Infinity b => Infinity (negb b)
  | Finite a c1 e1, Finite b c2 e2 =>
      let m := Z.min e1 e2 in
      let d := scaled a c1 e1 m - scaled b c2 e2 m in
      if d =? 0
      then Finite ((c1 =? 0)%N && (c2 =? 0)%N && a && negb b) 0 m
      else Finite (d <? 0) (Z.abs_N d) m
  end.

(** [x.multipliedBy(y)]. *)
Definition multipliedBy (x y : BigNumber) : BigNumber :=
  match x, y with
  | NaN, _ | _, NaN => NaN
  | Infinity a, Infinity b => Infinity (xorb a b)
  | Infinity a, Finite b c _ | Finite b c _, Infinity a =>
      if (c =? 0)%N then NaN else Infinity (xorb a b)
  | Finite a c1 e1, Finite b c2 e2 => Finite (xorb a b) (c1 * c2) (e1 + e2)
  end.

(** [x.shiftedBy(k)]: multiplication by [10^k]. *)
Definition shiftedBy (x : BigNumber) (k : Z) : BigNumber :=
  match x with
  | Finite neg c e => Finite neg c (e + k)
  | _ => x
  end.

(** *** Rendering *)

(** [c / p] rounded to an integer in mode [rm], for a value of sign
    [neg]. *)
Definition roundDiv (rm : RoundingMode) (neg : bool) (c p : N) : N :=
  let q := (c / p)%N in
  let r := (c mod p)%N in
  if (r =? 0)%N then q
  else
    let above := (p <? 2 * r)%N in
    let tie := (p =? 2 * r)%N in
    let up :=
      match rm with
      | ROUND_UP => true
      | ROUND_DOWN => false
      | ROUND_CEIL => negb neg
      | ROUND_FLOOR => neg
      | ROUND_HALF_UP => above || tie
      | ROUND_HALF_DOWN => above
      | ROUND_HALF_EVEN => above || (tie && N.odd q)
      | ROUND_HALF_CEIL => above || (tie && negb neg)
      | ROUND_HALF_FLOOR => above || (tie && neg)
      end in
    if up then (q + 1)%N else q.

(** The integer [n] with [|x|] rounded to [dp] decimals equal to
    [n / 10^dp]. *)
Definition roundTo (rm : RoundingMode) (neg : bool) (c : N) (e : Z)
    (dp : nat) : N :=
  let s := e + Z.of_nat dp in
  if 0 <=? s then (c * 10 ^ Z.to_N s)%N
  else roundDiv rm neg c (10 ^ Z.to_N (- s))%N.

Definition intDigits (n : N) (dp : nat) : string :=
  digitsN (n / 10 ^ N.of_nat dp).

(** The fractional part of [n / 10^dp], with its decimal point; empty for
    [dp = 0]. *)
Definition fracPart (n : N) (dp : nat) : string :=
  match dp with
  | O => ""
  | S _ => "." ++ digitsFixed dp (n mod 10 ^ N.of_nat dp)
  end.

(** The sign the library prints: a minus for a negative value that is not
    zero, decided before rounding. *)
Definition signText (neg : bool) (c : N) : string :=
  if neg && negb (c =? 0)%N then "-" else "".

Definition infinityText (neg : bool) : string :=
  if neg then "-Infinity" else "Infinity".

(** [x.toFixed(dp, rm)]. *)
Definition toFixed (x : BigNumber) (dp : nat) (rm : RoundingMode) : string :=
  match x with
  | NaN => "NaN"
  | Infinity neg => infinityText neg
  | Finite neg c e =>
      let n := roundTo rm neg c e dp in
      signText neg c ++ intDigits n dp ++ fracPart n dp
  end.

(** [x.toFormat(dp, rm)] with the library's default format: groups of
    three integer digits separated by commas, a point before the
    fraction. *)
Definition toFormat (x : BigNumber) (dp : nat) (rm : RoundingMode) : string :=
  match x with
  | NaN => "NaN"
  | Infinity neg => infinityText neg
  | Finite neg c e =>
      let n := roundTo rm neg c e dp in
      signText neg c ++ group3 (intDigits n dp) ++ fracPart n dp
  end.

(** Strip the trailing zeros of a coefficient. *)
Fixpoint stripZeros (fuel : nat) (c : N) (e : Z) : N * Z :=
  match fuel with
  | O => (c, e)
  | S f =>
      if (c =? 0)%N then (0%N, 0)
      else if (c mod 10 =? 0)%N then stripZeros f (c / 10)%N (e + 1)
      else (c, e)
  end.

Definition normalize (c : N) (e : Z) : N * Z :=
  stripZeros (S (N.size_nat c)) c e.

(** [x.toFixed()] without arguments: the exact value in plain notation. *)
Definition toFixedExact (x : BigNumber) : string :=
  match x with
  | NaN => "NaN"
  | Infinity neg => infinityText neg
  | Finite neg c e =>
      let (c', e') := normalize c e in
      signText neg c ++
      (if 0 <=? e' then digitsN (c' * 10 ^ Z.to_N e')
       else intDigits c' (Z.to_nat (- e')) ++ fracPart c' (Z.to_nat (- e')))
  end.

(** *** Conversion to a JavaScript number

    [x.toNumber()] is the IEEE 754 binary64 number nearest to [x] (ties to
    even), read back as the shortest decimal that denotes it.  Everything
    is computed on exact integers. *)

Definition roundHalfEven (num den : N) : N :=
  let q := (num / den)%N in
  let r := (num mod den)%N in
  if (2 * r <? den)%N then q
  else if (den <? 2 * r)%N then (q + 1)%N
  else if N.even q then q else (q + 1)%N.

(** [p >= q * b^g], for an exponent [g] of either sign. *)
Definition geScaled (b p q : N) (g : Z) : bool :=
  if 0 <=? g then (q * b ^ Z.to_N g <=? p)%N
  else (q <=? p * b ^ Z.to_N (- g))%N.

(** [floor (log2 (p/q))] and [floor (log10 (p/q))] for positive [p], [q]. *)
Definition floorLog2 (p q : N) : Z :=
  let g := Z.of_N (N.log2 p) - Z.of_N (N.log2 q) in
  if geScaled 2 p q g then g else g - 1.

Definition floorLog10 (p q : N) : Z :=
  let g := numDigits p - numDigits q in
  if geScaled 10 p q g then g else g - 1.

(** [c * b^e] as a fraction of naturals. *)
Definition fraction (b c : N) (e : Z) : N * N :=
  if 0 <=? e then ((c * b ^ Z.to_N e)%N, 1%N)
  else (c, (b ^ Z.to_N (- e))%N).

(** [p / (q * b^k)] as a fraction of naturals. *)
Definition unscale (b p q : N) (k : Z) : N * N :=
  if 0 <=? k then (p, (q * b ^ Z.to_N k)%N)
  else ((p * b ^ Z.to_N (- k))%N, q).

(** The binary64 number nearest to [c * 10^e], as [m * 2^k] with
    [m < 2^53] and [-1074 <= k <= 971]; [None] on overflow. *)
Definition binary64 (c : N) (e : Z) : option (N * Z) :=
  if (c =? 0)%N then Some (0%N, -1074)
  else
    let (p, q) := fraction 10 c e in
    let k := Z.max (floorLog2 p q - 52) (-1074) in
    let (num, den) := unscale 2 p q k in
    let m := roundHalfEven num den in
    let (m', k') :=
      if (m =? 2 ^ 53)%N then ((2 ^ 52)%N, k + 1) else (m, k) in
    if 971 <? k' then None else Some (m', k').

Definition sameDouble (a : option (N * Z)) (m : N) (k : Z) : bool :=
  match a with
  | Some (m', k') => (m' =? m)%N && (k' =? k)
  | None => false
  end.

(** The decimal of [n] significant digits that reads back as the double
    [m * 2^k] and is nearest to it, if there is one. *)
Definition shortestAt (m : N) (k : Z) (n : Z) : option (N * Z) :=
  let (p, q) := fraction 2 m k in
  let pos := floorLog10 p q - n + 1 in
  let (num, den) := unscale 10 p q pos in
  let lo := (num / den)%N in
  let r := (num mod den)%N in
  if (r =? 0)%N then Some (lo, pos)
  else
    let hi := (lo + 1)%N in
    match sameDouble (binary64 lo pos) m k, sameDouble (binary64 hi pos) m k with
    | true, true =>
        Some (if (2 * r <? den)%N then lo
              else if (den <? 2 * r)%N then hi
              else if N.even lo then lo else hi, pos)
    | true, false => Some (lo, pos)
    | false, true => Some (hi, pos)
    | false, false => None
    end.

(** Try [n], [n+1], ... significant digits; seventeen always suffice, and
    the exact binary expansion is the fallback. *)
Fixpoint shortestFrom (fuel : nat) (m : N) (k : Z) (n : Z) : N * Z :=
  match fuel with
  | O => if 0 <=? k then ((m * 2 ^ Z.to_N k)%N, 0)
         else ((m * 5 ^ Z.to_N (- k))%N, k)
  | S f =>
      match shortestAt m k n with
      | Some r => r
      | None => shortestFrom f m k (n + 1)
      end
  end.

Definition toNumber (x : BigNumber) : JSNumber :=
  match x with
  | Finite neg c e =>
      match binary64 c e with
      | None => Infinity neg
      | Some (m, k) =>
          if (m =? 0)%N then Finite neg 0 0
          else let (s, pos) := shortestFrom 17 m k 1 in Finite neg s pos
      end
  | _ => x
  end.

(** A number is falsy when it is [0], [-0] or [NaN]. *)
Definition falsyNumber (x : JSNumber) : bool := isNaN x || isZero x.

End BN.

(* ------------------------------------------------------------------ *)
(** ** Compact number formatting ([Intl.NumberFormat]) *)

Module Intl.
Import Text BN.

(** The power of ten a magnitude is displayed in, for the short compact
    patterns of the [en-US] locale: thousands, millions, billions,
    trillions, and trillions again beyond. *)
Definition compactExponent (magnitude : Z) : Z :=
  if magnitude <? 3 then 0
  else if magnitude <? 6 then 3
  else if magnitude <? 9 then 6
  else if magnitude <? 12 then 9
  else 12.

Definition compactSuffix (exponent : Z) : string :=
  match exponent with
  | 3 => "K"
  | 6 => "M"
  | 9 => "B"
  | 12 => "T"
  | _ => ""
  end.

(** [floor (log10 (c * 10^e))] for [c > 0]. *)
Definition magnitude (c : N) (e : Z) : Z := numDigits c - 1 + e.

(** [c * 10^e] rounded half away from zero to a multiple of [10^pos]. *)
Definition roundAt (c : N) (e pos : Z) : N :=
  if pos <=? e then (c * 10 ^ Z.to_N (e - pos))%N
  else roundDiv ROUND_HALF_UP false c (10 ^ Z.to_N (pos - e))%N.

(** The default digits of compact notation: two significant digits below
    ten, an integer from ten on.  The result is [n * 10^pos], [pos <= 0]. *)
Definition roundCompact (c : N) (e : Z) : N * Z :=
  let pos := Z.min 0 (magnitude c e - 1) in
  (roundAt c e pos, pos).

(** Grouping of compact notation: separators only when the integer part
    has five digits or more. *)
Definition groupMin2 (s : string) : string :=
  if (5 <=? String.length s)%nat then group3 s else s.

(** [n * 10^pos] in plain notation without trailing fractional zeros. *)
Definition plain (n : N) (pos : Z) : string :=
  let (n', e') := normalize n pos in
  if 0 <=? e' then groupMin2 (digitsN (n' * 10 ^ Z.to_N e'))
  else groupMin2 (intDigits n' (Z.to_nat (- e')))
       ++ fracPart n' (Z.to_nat (- e')).

(** The power of ten a number is displayed in.  Rounding may carry into
    the next magnitude (999999 is displayed as 1M, not as 1000K), in which
    case the exponent of that magnitude is taken. *)
Definition displayExponent (c : N) (e : Z) : Z :=
  let mag := magnitude c e in
  let ex := compactExponent mag in
  let (n, pos) := roundCompact c (e - ex) in
  if mag - ex <? magnitude n pos then compactExponent (mag + 1) else ex.

(** [new Intl.NumberFormat('en-US', { notation: 'compact',
    compactDisplay: 'short' }).format(x)]. *)
Definition compactFormat (x : JSNumber) : string :=
  match x with
  | NaN => "NaN"
  | Infinity neg => (if neg then "-" else "") ++ "∞"
  | Finite neg c e =>
      let sign := if neg then "-" else "" in
      if (c =? 0)%N then sign ++ "0"
      else
        let ex := displayExponent c e in
        let (n, pos) := roundCompact c (e - ex) in
        sign ++ plain n pos ++ compactSuffix ex
  end.

End Intl.

(* ------------------------------------------------------------------ *)
(** ** The formatter *)

Module Formatter.
Import Text BN Intl.

Definition ZERO_IN_BASE : BigNumber := ofN 0.
Definition DEFAULT_DECIMAL_PLACES : nat := 2.
Definition DEFAULT_MINIMAL_DISPLAY_DECIMAL_PLACES : nat := 4.
Definition DEFAULT_MAX_MINIMAL_DISPLAY_DECIMAL_PLACES : nat := 12.
Definition DEFAULT_INJ_FEE : JSNumber := Finite false 5 (-3).
Definition DEFAULT_ROUNDING_MODE : RoundingMode := ROUND_DOWN.

Definition getFormattedZeroValue (decimalPlaces : nat) : string :=
  if (0 <? decimalPlaces)%nat then "0." ++ repeatChar "0" decimalPlaces
  else "0.0".

(** The [units] table of [unAbbreviateNumber]; [None] is a missing key. *)
Definition units (unit : ascii) : option N :=
  match unit with
  | "K"%char => Some (10 ^ 3)%N
  | "M"%char => Some (10 ^ 6)%N
  | "B"%char => Some (10 ^ 9)%N
  | "T"%char => Some (10 ^ 12)%N
  | _ => None
  end.

(** [None] is the [undefined] of the bare [return]. *)
Definition unAbbreviateNumber (value : string) : option BigNumber :=
  match lastChar value with
  | None => None
  | Some unit =>
      match units unit with
      | None => None
      | Some u =>
          let formattedValue := dropLast (removeChar "," value) in
          Some (multipliedBy (ofString formattedValue) (ofN u))
      end
  end.

(** The approximation marker. *)
Definition approx : string := "≈".

Definition abbreviateNumber (number : JSNumber) : string :=
  let abbreviatedValue := compactFormat number in
  let abbreviatedValueMatchesInput :=
    eq number
       (match unAbbreviateNumber abbreviatedValue with
        | Some b => b
        | None => ofString "0"
        end) in
  if abbreviatedValueMatchesInput then abbreviatedValue
  else approx ++ abbreviatedValue.

(** Modelled from the spec: [getExactDecimalsFromNumber] is imported from
    the utilities package and its body is not part of the sources.  The
    specification describes it as the count of the digits after the
    decimal point in the exact textual form of the value; the text it
    receives is [value.toFixed()]. *)
Definition getExactDecimalsFromNumber (number : string) : nat :=
  String.length (afterChar "." number).

Record MinimalDecimals : Set := {
  minimalDecimalPlaces : nat;
  minimalDisplayAmount : BigNumber
}.

Definition getNumberMinimalDecimals (value : BigNumber)
    (defaultMinimalDecimalPlaces : option nat)
    (displayAbsoluteDecimalPlace : bool) : MinimalDecimals :=
  let valueExactDecimals := getExactDecimalsFromNumber (toFixedExact value) in
  let minimalDecimalPlaces :=
    match defaultMinimalDecimalPlaces with
    | Some d => d
    | None => DEFAULT_MINIMAL_DISPLAY_DECIMAL_PLACES
    end in
  let minNumberFromDefaultMinDecimals :=
    shiftedBy (ofN 1) (- Z.of_nat minimalDecimalPlaces) in
  if eq value (ofN 0) then
    {| minimalDecimalPlaces := 2; minimalDisplayAmount := ZERO_IN_BASE |}
  else if lte value minNumberFromDefaultMinDecimals
          && displayAbsoluteDecimalPlace then
    let actualMinimalDecimalPlaces :=
      if (DEFAULT_MAX_MINIMAL_DISPLAY_DECIMAL_PLACES <? valueExactDecimals)%nat
      then DEFAULT_MAX_MINIMAL_DISPLAY_DECIMAL_PLACES
      else valueExactDecimals in
    let minimalDisplayAmount :=
      shiftedBy (ofN 1) (- Z.of_nat actualMinimalDecimalPlaces) in
    {| minimalDecimalPlaces := actualMinimalDecimalPlaces;
       minimalDisplayAmount := minimalDisplayAmount |}
  else
    {| minimalDecimalPlaces := minimalDecimalPlaces;
       minimalDisplayAmount :=
         shiftedBy (ofN 1) (- Z.of_nat minimalDecimalPlaces) |}.

(** The raw value behind the [Ref]: absent, a string, a number or an
    already built decimal. *)
Inductive RawValue : Set :=
| Undefined
| Null
| Str (s : string)
| Num (n : JSNumber)
| Big (b : BigNumber).

(** The [options] argument; [None] is an absent field.  Counts of decimal
    places are natural numbers, as the decimal library requires of
    [toFixed] and [shiftedBy]. *)
Record Options : Set := {
  decimalPlaces : option nat;
  minimalDecimalPlacesOption : option nat;
  abbreviationFloor : option JSNumber;
  injFee : option JSNumber;
  roundingMode : option RoundingMode;
  displayAbsoluteDecimalPlace : option bool
}.

Definition defaultOptions : Options :=
  {| decimalPlaces := None; minimalDecimalPlacesOption := None;
     abbreviationFloor := None; injFee := None; roundingMode := None;
     displayAbsoluteDecimalPlace := None |}.

(** JavaScript truthiness of the raw value ([!value.value] is its
    negation): objects are always truthy. *)
Definition truthy (v : RawValue) : bool :=
  match v with
  | Undefined | Null => false
  | Str s => negb (s =? "")%string
  | Num n => negb (falsyNumber n)
  | Big _ => true
  end.

Section UseBigNumberFormatter.

Variable value : RawValue.
Variable options : Options.

Definition valueToBigNumber : BigNumber :=
  if negb (truthy value) then ofN 0
  else
    match value with
    | Big b => b
    | Str s => ofString s
    | Num n => n
    | Undefined | Null => ofN 0
    end.

Definition decimalPlaces' : nat :=
  match decimalPlaces options with
  | Some d => d
  | None => DEFAULT_DECIMAL_PLACES
  end.

Definition injFee' : JSNumber :=
  match injFee options with
  | Some f => f
  | None => DEFAULT_INJ_FEE
  end.

(** [options.roundingMode || DEFAULT_ROUNDING_MODE]: the mode [ROUND_UP]
    is the number [0], which is falsy. *)
Definition roundingMode' : RoundingMode :=
  match roundingMode options with
  | None | Some ROUND_UP => DEFAULT_ROUNDING_MODE
  | Some rm => rm
  end.

Definition displayAbsoluteDecimalPlace' : bool :=
  match displayAbsoluteDecimalPlace options with
  | Some b => b
  | None => false
  end.

(** The guard [!!options.abbreviationFloor &&
    valueToBigNumber.value.gte(options.abbreviationFloor)], which three of
    the renderings repeat. *)
Definition aboveAbbreviationFloor : bool :=
  match abbreviationFloor options with
  | Some floor => negb (falsyNumber floor) && gte valueToBigNumber floor
  | None => false
  end.

Definition valueToFixed : string :=
  if isNaN valueToBigNumber || isZero valueToBigNumber then
    getFormattedZeroValue decimalPlaces'
  else if aboveAbbreviationFloor then
    abbreviateNumber (toNumber valueToBigNumber)
  else toFixed valueToBigNumber decimalPlaces' roundingMode'.

Definition valueToString : string :=
  if isNaN valueToBigNumber || isZero valueToBigNumber then
    getFormattedZeroValue decimalPlaces'
  else if aboveAbbreviationFloor then
    abbreviateNumber (toNumber valueToBigNumber)
  else
    let md :=
      getNumberMinimalDecimals valueToBigNumber
        (minimalDecimalPlacesOption options) displayAbsoluteDecimalPlace' in
    if lt (abs valueToBigNumber) (minimalDisplayAmount md) then
      "< " ++ toFormat (minimalDisplayAmount md) (minimalDecimalPlaces md)
                       ROUND_HALF_UP
    else toFormat valueToBigNumber decimalPlaces' roundingMode'.

Definition valueWithGasBuffer : BigNumber :=
  if isNaN valueToBigNumber || lte valueToBigNumber injFee' then ofN 0
  else minus valueToBigNumber injFee'.

Definition valueWithGasBufferToFixed : string :=
  if isNaN valueToBigNumber || isZero valueToBigNumber then
    getFormattedZeroValue decimalPlaces'
  else toFixed valueWithGasBuffer decimalPlaces' roundingMode'.

Definition valueWithGasBufferToString : string :=
  if isNaN valueToBigNumber || isZero valueToBigNumber then
    getFormattedZeroValue decimalPlaces'
  else if aboveAbbreviationFloor then
    abbreviateNumber (toNumber valueToBigNumber)
  else
    let md :=
      getNumberMinimalDecimals valueToBigNumber
        (minimalDecimalPlacesOption options) displayAbsoluteDecimalPlace' in
    if lt (abs valueWithGasBuffer) (minimalDisplayAmount md) then
      "< " ++ toFormat (minimalDisplayAmount md) (minimalDecimalPlaces md)
                       ROUND_HALF_UP
    else toFormat valueWithGasBuffer decimalPlaces' roundingMode'.

End UseBigNumberFormatter.

End Formatter.

(* ------------------------------------------------------------------ *)
(** ** Validation of the Metamask wallet *)

Module Metamask.
Import Text BN.

(** [s.toLowerCase()], on the ASCII letters; the addresses the function
    compares are hexadecimal texts. *)
Definition lowerChar (ch : ascii) : ascii :=
  let n := N_of_ascii ch in
  if ((65 <=? n) && (n <=? 90))%N then ascii_of_N (n + 32) else ch.

Fixpoint toLowerCase (s : string) : string :=
  match s with
  | "" => ""
  | String ch rest => String (lowerChar ch) (toLowerCase rest)
  end.

(** [parseInt(s, 16)]: leading white space (here the ASCII one) and a
    sign are skipped, then a [0x] or [0X] prefix, and the longest run of
    hexadecimal digits is read; without any digit the result is NaN. *)
Definition isWhiteSpace (ch : ascii) : bool :=
  let n := N_of_ascii ch in
  (((9 <=? n) && (n <=? 13)) || (n =? 32))%N.

Fixpoint trimStart (s : string) : string :=
  match s with
  | "" => ""
  | String ch rest => if isWhiteSpace ch then trimStart rest else s
  end.

Definition hexValue (ch : ascii) : option N :=
  let n := N_of_ascii ch in
  if ((48 <=? n) && (n <=? 57))%N then Some (n - 48)%N
  else if ((97 <=? n) && (n <=? 102))%N then Some (n - 87)%N
  else if ((65 <=? n) && (n <=? 70))%N then Some (n - 55)%N
  else None.

(** The value of the longest prefix of hexadecimal digits; [None] when
    the text does not begin with one. *)
Fixpoint hexPrefix (acc : option N) (s : string) : option N :=
  match s with
  | "" => acc
  | String ch rest =>
      match hexValue ch with
      | Some d =>
          hexPrefix
            (Some (16 * match acc with Some a => a | None => 0 end + d)%N)
            rest
      | None => acc
      end
  end.

Definition parseInt16 (s : string) : JSNumber :=
  let trimmed := trimStart s in
  let '(neg, unsigned) :=
    match trimmed with
    | String "-" r => (true, r)
    | String "+" r => (false, r)
    | _ => (false, trimmed)
    end in
  let digits :=
    match unsigned with
    | String "0" (String "x" r) => r
    | String "0" (String "X" r) => r
    | _ => unsigned
    end in
  match hexPrefix None digits with
  | Some n => toNumber (Finite neg n 0)
  | None => NaN
  end.

(** [x === y] on numbers: NaN equals nothing, the two zeros are equal. *)
Definition strictEq (x y : JSNumber) : bool := eq x y.

(** The members of [EthereumChainId] the function names. *)
Definition Kovan : JSNumber := ofN 42.
Definition Goerli : JSNumber := ofN 5.

Inductive ErrorCode : Set := UnspecifiedErrorCode.
Inductive ErrorType : Set := WalletError.

(** A [MetamaskException]: the message of the wrapped error and its
    context. *)
Record MetamaskException : Set := {
  message : string;
  code : ErrorCode;
  type : ErrorType
}.

Definition walletException (msg : string) : MetamaskException :=
  {| message := msg; code := UnspecifiedErrorCode; type := WalletError |}.

(** The result of an awaited call of the wallet strategy. *)
Inductive Reply (A : Type) : Type :=
| Resolved (a : A)
| Rejected (reason : string).
Arguments Resolved {A} a.
Arguments Rejected {A} reason.

(** What the wallet strategy answers to the two calls the function
    makes. *)
Record WalletStrategy : Type := {
  getAddresses : Reply (list string);
  getEthereumChainId : Reply string
}.

Inductive WalletCall : Set := GetAddresses | GetEthereumChainId.

(** How the promise of [validateMetamask] settles: fulfilled, rejected
    with an exception of its own, or rejected by a call it awaited. *)
Inductive Outcome : Set :=
| Passed
| Thrown (e : MetamaskException)
| Failed (reason : string).

Definition lockedMessage : string :=
  "Your Metamask is currently locked. Please unlock your Metamask.".
Definition wrongAddressMessage : string :=
  "You are connected to the wrong address. Please logout and connect to Metamask again".
Definition kovanMessage : string :=
  "Please change your Metamask network to Kovan Test Network".
Definition goerliMessage : string :=
  "Please change your Metamask network to Goerli Test Network".
Definition mainnetMessage : string :=
  "Please change your Metamask network to Ethereum Mainnet".

Section ValidateMetamask.

(** The constant [ETHEREUM_CHAIN_ID] of the application. *)
Variable ETHEREUM_CHAIN_ID : JSNumber.
Variable walletStrategy : WalletStrategy.

(** The calls made, in order, and the outcome. *)
Definition validateMetamask (address : string) : list WalletCall * Outcome :=
  let chainId := ETHEREUM_CHAIN_ID in
  match getAddresses walletStrategy with
  | Rejected reason => ([GetAddresses], Failed reason)
  | Resolved addresses =>
      let metamaskIsLocked := (List.length addresses =? 0)%nat in
      if metamaskIsLocked then
        ([GetAddresses], Thrown (walletException lockedMessage))
      else
        let metamaskActiveAddress := List.hd "" addresses in
        let metamaskActiveAddressDoesntMatchTheActiveAddress :=
          negb (address =? "")%string
          && negb (toLowerCase metamaskActiveAddress
                   =? toLowerCase address)%string in
        if metamaskActiveAddressDoesntMatchTheActiveAddress then
          ([GetAddresses], Thrown (walletException wrongAddressMessage))
        else
          match getEthereumChainId walletStrategy with
          | Rejected reason => ([GetAddresses; GetEthereumChainId], Failed reason)
          | Resolved hex =>
              let metamaskChainId := parseInt16 hex in
              let metamaskChainIdDoesntMatchTheActiveChainId :=
                negb (strictEq chainId metamaskChainId) in
              ([GetAddresses; GetEthereumChainId],
               if metamaskChainIdDoesntMatchTheActiveChainId then
                 if strictEq chainId Kovan then
                   Thrown (walletException kovanMessage)
                 else if strictEq chainId Goerli then
                   Thrown (walletException goerliMessage)
                 else Thrown (walletException mainnetMessage)
               else Passed)
          end
  end.

End ValidateMetamask.




(** The address check passes: no address is given, or it equals the
    active one up to letter case. *)
Definition addressAccepted (address active : string) : Prop :=
  address = "" \/ toLowerCase active = toLowerCase address.

(** An unlocked wallet: the active address, a further one, and the chain
    it reports. *)
Definition unlockedOn (active hex : string) : WalletStrategy :=
  {| getAddresses :=
       Resolved [active; "0x0000000000000000000000000000000000000001"];
     getEthereumChainId := Resolved hex |}.

End Metamask.

(* ------------------------------------------------------------------ *)
(** ** Vocabulary of the properties *)

Module Observe.
Import Text BN Intl Formatter.

(** Number of characters after the decimal point of a rendered number. *)
Definition fractionDigits (s : string) : nat :=
  String.length (afterChar "." s).

(** Every character of [s] is a decimal digit. *)
Fixpoint allDigits (s : string) : bool :=
  match s with
  | "" => true
  | String ch rest => isDigit ch && allDigits rest
  end.

(** [s.startsWith(p)]. *)
Fixpoint startsWith (p s : string) : bool :=
  match p, s with
  | "", _ => true
  | String a p', String b s' => Ascii.eqb a b && startsWith p' s'
  | String _ _, "" => false
  end.

Definition headIsDigit (s : string) : bool :=
  match s with
  | "" => false
  | String ch _ => isDigit ch
  end.

Definition lastIsDigit (s : string) : bool :=
  match lastChar s with
  | Some ch => isDigit ch
  | None => false
  end.

(** The text ends in one of the unit letters [K], [M], [B], [T]. *)
Definition hasUnitSuffix (s : string) : bool :=
  match lastChar s with
  | Some ch => match units ch with Some _ => true | None => false end
  | None => false
  end.

(** The rational a finite decimal denotes ([0] for NaN and the
    infinities, which denote no rational). *)
Definition valueQ (x : BigNumber) : Q :=
  match x with
  | Finite neg c e => (inject_Z (signed neg c) * inject_Z 10 ^ e)%Q
  | _ => 0%Q
  end.

(** Configurations of the scenarios. *)
Definition noPlaces : Options :=
  {| decimalPlaces := Some 0%nat; minimalDecimalPlacesOption := None;
     abbreviationFloor := None; injFee := None; roundingMode := None;
     displayAbsoluteDecimalPlace := None |}.

Definition absolutePlaces (minimal : nat) (absolute : bool) : Options :=
  {| decimalPlaces := None; minimalDecimalPlacesOption := Some minimal;
     abbreviationFloor := None; injFee := None; roundingMode := None;
     displayAbsoluteDecimalPlace := Some absolute |}.

Definition floorAt (floor : JSNumber) : Options :=
  {| decimalPlaces := None; minimalDecimalPlacesOption := None;
     abbreviationFloor := Some floor; injFee := None; roundingMode := None;
     displayAbsoluteDecimalPlace := None |}.

(** The options with the fee replaced. *)
Definition withFee (options : Options) (fee : option JSNumber) : Options :=
  {| decimalPlaces := decimalPlaces options;
     minimalDecimalPlacesOption := minimalDecimalPlacesOption options;
     abbreviationFloor := abbreviationFloor options;
     injFee := fee;
     roundingMode := roundingMode options;
     displayAbsoluteDecimalPlace := displayAbsoluteDecimalPlace options |}.

(** The last step of the grouped renderings, as the specification words
    it: a "less than" text when [x] is below the resolved threshold in
    magnitude, the grouped digits of [x] otherwise. *)
Definition lessThanOrGrouped (md : MinimalDecimals) (dp : nat)
    (rm : RoundingMode) (x : BigNumber) : string :=
  if lt (abs x) (minimalDisplayAmount md)
  then "< " ++ toFormat (minimalDisplayAmount md) (minimalDecimalPlaces md)
                        ROUND_HALF_UP
  else toFormat x dp rm.

(** The threshold [10^-p] written with [p] decimals. *)
Definition thresholdText (p : nat) : string :=
  match p with
  | O => "1"
  | S k => "0." ++ repeatChar "0" k ++ "1"
  end.

(** The options with the rounding mode replaced. *)
Definition withRoundingMode (options : Options) (rm : option RoundingMode)
    : Options :=
  {| decimalPlaces := decimalPlaces options;
     minimalDecimalPlacesOption := minimalDecimalPlacesOption options;
     abbreviationFloor := abbreviationFloor options;
     injFee := injFee options;
     roundingMode := rm;
     displayAbsoluteDecimalPlace := displayAbsoluteDecimalPlace options |}.

(** The value is printed with a minus sign. *)
Definition negative (x : BigNumber) : bool :=
  match x with
  | NaN => false
  | Infinity neg => neg
  | Finite neg c _ => neg && negb (c =? 0)%N
  end.

End Observe.

(* ------------------------------------------------------------------ *)
(** ** Facts about digit strings *)

Module TextFacts.
Import Text Observe.

Lemma length_append (s t : string) :
  String.length (s ++ t) = (String.length s + String.length t)%nat.
Proof. induction s as [|ch s IH]; simpl; [reflexivity | now rewrite IH]. Qed.

Lemma length_repeatChar (ch : ascii) (n : nat) :
  String.length (repeatChar ch n) = n.
Proof. induction n as [|n IH]; simpl; [reflexivity | now rewrite IH]. Qed.

Lemma length_digitsFixed (k : nat) : forall r,
  String.length (digitsFixed k r) = k.
Proof.
  induction k as [|k IH]; intros r; simpl; [reflexivity|].
  rewrite length_append, IH. simpl. lia.
Qed.

Lemma isDigit_digitChar (d : N) : (d < 10)%N -> isDigit (digitChar d) = true.
Proof.
  intros H.
  assert (E : (d = 0 \/ d = 1 \/ d = 2 \/ d = 3 \/ d = 4 \/ d = 5 \/ d = 6
               \/ d = 7 \/ d = 8 \/ d = 9)%N) by lia.
  repeat (destruct E as [E | E]; [subst d; reflexivity |]).
  subst d; reflexivity.
Qed.

Lemma isDigit_mod10 (n : N) : isDigit (digitChar (n mod 10)) = true.
Proof. apply isDigit_digitChar, N.mod_lt. discriminate. Qed.

Lemma allDigits_append (s t : string) :
  allDigits (s ++ t) = allDigits s && allDigits t.
Proof.
  induction s as [|ch s IH]; simpl; [reflexivity|].
  now rewrite IH, andb_assoc.
Qed.

Lemma allDigits_repeat0 (n : nat) : allDigits (repeatChar "0" n) = true.
Proof. induction n as [|n IH]; simpl; [reflexivity | exact IH]. Qed.

Lemma allDigits_digitsFixed (k : nat) : forall r,
  allDigits (digitsFixed k r) = true.
Proof.
  induction k as [|k IH]; intros r; simpl; [reflexivity|].
  rewrite allDigits_append, IH. simpl. now rewrite isDigit_mod10.
Qed.

Lemma allDigits_digitsAux (fuel : nat) : forall n acc,
  allDigits acc = true -> allDigits (digitsAux fuel n acc) = true.
Proof.
  induction fuel as [|f IH]; intros n acc Hacc; simpl; [exact Hacc|].
  assert (H : allDigits (String (digitChar (n mod 10)) acc) = true)
    by (simpl; now rewrite isDigit_mod10).
  destruct (n / 10 =? 0)%N; [exact H | now apply IH].
Qed.

Lemma allDigits_digitsN (n : N) : allDigits (digitsN n) = true.
Proof. apply allDigits_digitsAux. reflexivity. Qed.

Lemma headIsDigit_digitsAux (fuel : nat) : forall n acc,
  headIsDigit acc = true -> headIsDigit (digitsAux fuel n acc) = true.
Proof.
  induction fuel as [|f IH]; intros n acc Hacc; simpl; [exact Hacc|].
  destruct (n / 10 =? 0)%N.
  - simpl. apply isDigit_mod10.
  - apply IH. simpl. apply isDigit_mod10.
Qed.

Lemma headIsDigit_digitsN (n : N) : headIsDigit (digitsN n) = true.
Proof.
  unfold digitsN. simpl.
  destruct (n / 10 =? 0)%N.
  - simpl. apply isDigit_mod10.
  - apply headIsDigit_digitsAux. simpl. apply isDigit_mod10.
Qed.

Lemma digit_not_point (ch : ascii) : isDigit ch = true -> Ascii.eqb ch "." = false.
Proof.
  destruct ch as [[] [] [] [] [] [] [] []]; intros H;
    first [reflexivity | discriminate H].
Qed.

Lemma allDigits_no_point (s : string) :
  allDigits s = true -> includesChar "." s = false.
Proof.
  induction s as [|ch s IH]; simpl; [reflexivity|].
  intros H. apply andb_prop in H. destruct H as [Hc Hs].
  now rewrite (digit_not_point _ Hc), IH.
Qed.

Lemma afterChar_append (ch : ascii) (s t : string) :
  includesChar ch s = false -> afterChar ch (s ++ t) = afterChar ch t.
Proof.
  induction s as [|x s IH]; simpl; [reflexivity|].
  intros H. apply orb_false_elim in H. destruct H as [Hx Hs].
  rewrite Hx. now apply IH.
Qed.


(** *** The digits of a number *)

Lemma size_nat_bound (n : N) : (n < 2 ^ N.of_nat (N.size_nat n))%N.
Proof.
  destruct n as [|p]; [reflexivity|]. simpl N.size_nat.
  induction p as [p IH | p IH |]; simpl Pos.size_nat;
    rewrite ?Nat2N.inj_succ, ?N.pow_succ_r'; lia.
Qed.

Lemma digitValue_digitChar (d : N) : (d < 10)%N -> digitValue (digitChar d) = d.
Proof.
  intros H. unfold digitValue, digitChar.
  rewrite N_ascii_embedding by lia. lia.
Qed.

Lemma digitsValue_digitsAux (fuel : nat) : forall n acc,
  (n < 2 ^ N.of_nat fuel)%N ->
  digitsValue 0 (digitsAux fuel n acc) = digitsValue n acc.
Proof.
  induction fuel as [|f IH]; intros n acc Hn.
  - simpl in *. now replace n with 0%N by lia.
  - assert (D : digitsValue 0 (String (digitChar (n mod 10)) acc)
                = digitsValue (n mod 10) acc).
    { simpl. rewrite digitValue_digitChar by (apply N.mod_lt; discriminate).
      reflexivity. }
    pose proof (N.div_mod n 10 ltac:(discriminate)) as E.
    simpl digitsAux. destruct (N.eqb_spec (n / 10) 0) as [Hq | Hq].
    + rewrite D. f_equal. apply N.mod_small.
      apply N.div_small_iff; [discriminate | exact Hq].
    + rewrite IH.
      * simpl. rewrite digitValue_digitChar by (apply N.mod_lt; discriminate).
        f_equal. symmetry. exact E.
      * rewrite Nat2N.inj_succ, N.pow_succ_r' in Hn.
        apply N.Div0.div_lt_upper_bound. lia.
Qed.

(** [digitsN] is the decimal expansion: reading it back gives the
    number. *)
Lemma digitsValue_digitsN (n : N) : digitsValue 0 (digitsN n) = n.
Proof.
  unfold digitsN. rewrite digitsValue_digitsAux; [reflexivity|].
  rewrite Nat2N.inj_succ, N.pow_succ_r'.
  pose proof (size_nat_bound n). lia.
Qed.

(** *** Last characters *)

Lemma lastChar_cons (x : ascii) (r : string) :
  r <> "" -> lastChar (String x r) = lastChar r.
Proof. destruct r; [contradiction | reflexivity]. Qed.

Lemma append_nonempty (s t : string) : t <> "" -> s ++ t <> "".
Proof. destruct s; [trivial | discriminate]. Qed.

Lemma lastChar_append (s t : string) :
  t <> "" -> lastChar (s ++ t) = lastChar t.
Proof.
  intros Ht. induction s as [|x s IH]; [reflexivity|].
  change (String x s ++ t) with (String x (s ++ t)).
  rewrite lastChar_cons by now apply append_nonempty. exact IH.
Qed.

Lemma append_empty (s : string) : s ++ "" = s.
Proof. induction s as [|x s IH]; simpl; [reflexivity | now rewrite IH]. Qed.

Lemma groupFrom_nonempty (s : string) (i : nat) :
  s <> "" -> groupFrom s i <> "".
Proof. destruct s; [contradiction|]. destruct i; discriminate. Qed.

Lemma groupFrom_0 (x : ascii) (s : string) :
  groupFrom (String x s) 0 = String "," (String x (groupFrom s 2)).
Proof. reflexivity. Qed.

Lemma groupFrom_S (x : ascii) (s : string) (i : nat) :
  groupFrom (String x s) (S i) = String x (groupFrom s i).
Proof. reflexivity. Qed.

Lemma lastChar_groupFrom (s : string) : forall i,
  lastChar (groupFrom s i) = lastChar s.
Proof.
  induction s as [|x s IH]; intros i; [reflexivity|].
  destruct s as [|y s].
  - destruct i; reflexivity.
  - assert (N2 : forall j, groupFrom (String y s) j <> "")
      by (intros j; apply groupFrom_nonempty; discriminate).
    destruct i; [rewrite groupFrom_0 | rewrite groupFrom_S].
    + rewrite lastChar_cons by discriminate.
      rewrite lastChar_cons by apply N2.
      rewrite IH. reflexivity.
    + rewrite lastChar_cons by apply N2.
      rewrite IH. reflexivity.
Qed.

Lemma allDigits_lastIsDigit (s : string) :
  allDigits s = true -> s <> "" -> lastIsDigit s = true.
Proof.
  unfold lastIsDigit. induction s as [|x s IH]; [contradiction|].
  intros H _. simpl in H. apply andb_prop in H. destruct H as [Hx Hs].
  destruct s as [|y s]; [exact Hx|].
  rewrite lastChar_cons by discriminate. apply IH; [exact Hs | discriminate].
Qed.

Lemma digitsN_nonempty (n : N) : digitsN n <> "".
Proof.
  pose proof (headIsDigit_digitsN n) as H.
  destruct (digitsN n); [discriminate H | discriminate].
Qed.

Lemma lastIsDigit_digitsN (n : N) : lastIsDigit (digitsN n) = true.
Proof.
  apply allDigits_lastIsDigit; [apply allDigits_digitsN | apply digitsN_nonempty].
Qed.

Lemma lastIsDigit_append (s t : string) :
  t <> "" -> lastIsDigit t = true -> lastIsDigit (s ++ t) = true.
Proof. intros Ht H. unfold lastIsDigit. now rewrite lastChar_append. Qed.

End TextFacts.

(* ------------------------------------------------------------------ *)
(** ** Facts about the decimal type *)

Module BNFacts.
Import Text BN Observe TextFacts.

(** *** Rendering *)

Lemma signText_no_point (neg : bool) (c : N) :
  includesChar "." (signText neg c) = false.
Proof. unfold signText. destruct (neg && negb (c =? 0)%N); reflexivity. Qed.

Lemma afterPoint_fracPart (n : N) (dp : nat) :
  afterChar "." (fracPart n dp) = digitsFixed dp (n mod 10 ^ N.of_nat dp).
Proof. destruct dp; reflexivity. Qed.

Lemma afterPoint_toFixed (neg : bool) (c : N) (e : Z) (dp : nat)
    (rm : RoundingMode) :
  afterChar "." (toFixed (Finite neg c e) dp rm)
  = digitsFixed dp (roundTo rm neg c e dp mod 10 ^ N.of_nat dp).
Proof.
  unfold toFixed.
  rewrite afterChar_append by apply signText_no_point.
  rewrite afterChar_append
    by (apply allDigits_no_point, allDigits_digitsN).
  apply afterPoint_fracPart.
Qed.

(** *** Comparison *)

Lemma pow10_pos (k : Z) : 0 <= k -> 0 < 10 ^ k.
Proof. intros H. apply Z.pow_pos_nonneg; lia. Qed.

Lemma compare_scale (a b p : Z) : 0 < p -> (a * p ?= b * p) = (a ?= b).
Proof.
  intros Hp. destruct (Z.compare_spec a b) as [E | L | G].
  - subst. apply Z.compare_refl.
  - apply Z.compare_lt_iff. nia.
  - apply Z.compare_gt_iff. nia.
Qed.

Lemma compare_zero (neg : bool) (c : N) (e : Z) :
  compare (Finite neg c e) (ofN 0) = Some (signed neg c ?= 0).
Proof.
  unfold compare, ofN, scaled. f_equal.
  change (signed false 0) with 0. rewrite Z.mul_0_l.
  rewrite <- (compare_scale (signed neg c) 0 (10 ^ (e - Z.min e 0)))
    by (apply pow10_pos; lia).
  now rewrite Z.mul_0_l.
Qed.

Lemma signed_abs (d : Z) : signed (d <? 0) (Z.abs_N d) = d.
Proof.
  unfold signed. rewrite N2Z.inj_abs_N.
  destruct (Z.ltb_spec d 0); lia.
Qed.

(** *** The rational a decimal denotes *)

Lemma ten_nonzero : ~ (inject_Z 10 == 0)%Q.
Proof. discriminate. Qed.

Lemma valueQ_scaled (neg : bool) (c : N) (e m : Z) :
  m <= e ->
  (valueQ (Finite neg c e) == inject_Z (scaled neg c e m) * inject_Z 10 ^ m)%Q.
Proof.
  intros H. unfold valueQ, scaled.
  rewrite inject_Z_mult, Zpower_Qpower by lia.
  rewrite <- Qmult_assoc, <- Qpower_plus by apply ten_nonzero.
  now replace (e - m + m) with e by lia.
Qed.

(** Subtraction of finite decimals is exact. *)
Lemma minus_exact (a b : bool) (c1 c2 : N) (e1 e2 : Z) :
  (valueQ (minus (Finite a c1 e1) (Finite b c2 e2))
   == valueQ (Finite a c1 e1) - valueQ (Finite b c2 e2))%Q.
Proof.
  set (m := Z.min e1 e2).
  rewrite (valueQ_scaled a c1 e1 m), (valueQ_scaled b c2 e2 m) by lia.
  unfold minus. fold m.
  destruct (Z.eqb_spec (scaled a c1 e1 m - scaled b c2 e2 m) 0) as [E | E].
  - unfold valueQ. 
    replace (scaled a c1 e1 m) with (scaled b c2 e2 m) by lia.
    assert (Z0 : forall n, signed n 0 = 0) by (intros []; reflexivity).
    rewrite Z0. ring.
  - unfold valueQ. rewrite signed_abs.
    unfold Z.sub. rewrite inject_Z_plus, inject_Z_opp. ring.
Qed.

(** Comparison of finite decimals is comparison of the rationals they
    denote. *)
Lemma compare_valueQ (a b : bool) (c1 c2 : N) (e1 e2 : Z) :
  compare (Finite a c1 e1) (Finite b c2 e2)
  = Some (valueQ (Finite a c1 e1) ?= valueQ (Finite b c2 e2))%Q.
Proof.
  set (m := Z.min e1 e2).
  rewrite (valueQ_scaled a c1 e1 m), (valueQ_scaled b c2 e2 m) by lia.
  unfold compare. fold m. f_equal.
  generalize (scaled a c1 e1 m) (scaled b c2 e2 m). intros x y.
  assert (P : (0 < inject_Z 10 ^ m)%Q) by (apply Qpower_0_lt; reflexivity).
  destruct (Z.compare_spec x y) as [E | L | G]; symmetry.
  - subst. apply Qeq_alt. reflexivity.
  - apply Qlt_alt. apply Qmult_lt_compat_r; [exact P|].
    now rewrite <- Zlt_Qlt.
  - apply Qgt_alt. apply Qmult_lt_compat_r; [exact P|].
    now rewrite <- Zlt_Qlt.
Qed.

Lemma lte_valueQ (a b : bool) (c1 c2 : N) (e1 e2 : Z) :
  lte (Finite a c1 e1) (Finite b c2 e2) = true
  <-> (valueQ (Finite a c1 e1) <= valueQ (Finite b c2 e2))%Q.
Proof.
  unfold lte. rewrite compare_valueQ, Qle_alt.
  destruct (valueQ (Finite a c1 e1) ?= valueQ (Finite b c2 e2))%Q;
    split; intros H; congruence.
Qed.

(** *** Normalisation of the coefficient *)






End BNFacts.

(* ------------------------------------------------------------------ *)
(** ** Properties of the formatter *)

Module FormatterFacts.
Import Text BN Intl Formatter Observe TextFacts BNFacts.

(** *** The zero text *)

Lemma afterPoint_zero_text (d : nat) :
  afterChar "." (getFormattedZeroValue d)
  = repeatChar "0" (Nat.max 1 d).
Proof. destruct d; reflexivity. Qed.

Lemma fractionDigits_zero_text (d : nat) :
  fractionDigits (getFormattedZeroValue d) = Nat.max 1 d.
Proof.
  unfold fractionDigits. now rewrite afterPoint_zero_text, length_repeatChar.
Qed.

Lemma decimalPlaces_set (options : Options) (d : nat) :
  decimalPlaces options = Some d -> decimalPlaces' options = d.
Proof. unfold decimalPlaces'. now intros ->. Qed.

(** The four renderings share their first guard. *)
Lemma renders_of_zero (value : RawValue) (options : Options) :
  isNaN (valueToBigNumber value) || isZero (valueToBigNumber value) = true ->
  valueToFixed value options = getFormattedZeroValue (decimalPlaces' options)
  /\ valueToString value options
     = getFormattedZeroValue (decimalPlaces' options)
  /\ valueWithGasBufferToFixed value options
     = getFormattedZeroValue (decimalPlaces' options)
  /\ valueWithGasBufferToString value options
     = getFormattedZeroValue (decimalPlaces' options).
Proof.
  intros H.
  unfold valueToFixed, valueToString, valueWithGasBufferToFixed,
    valueWithGasBufferToString.
  rewrite H. repeat split.
Qed.

(** C9. With [decimalPlaces] configured as 0, an input that normalises to
    NaN or to zero renders as ["0.0"] in [valueToFixed], [valueToString],
    [valueWithGasBufferToFixed] and [valueWithGasBufferToString]; and for
    every number of places the zero text has at least one digit after the
    point. *)
Theorem zero_renders_with_no_places (value : RawValue) (options : Options) :
  decimalPlaces options = Some 0%nat ->
  isNaN (valueToBigNumber value) || isZero (valueToBigNumber value) = true ->
  (valueToFixed value options = "0.0"
   /\ valueToString value options = "0.0"
   /\ valueWithGasBufferToFixed value options = "0.0"
   /\ valueWithGasBufferToString value options = "0.0")
  /\ forall d, (1 <= fractionDigits (getFormattedZeroValue d))%nat.
Proof.
  intros Hd Hz. split.
  - pose proof (renders_of_zero value options Hz) as R.
    rewrite (decimalPlaces_set _ _ Hd) in R. exact R.
  - intros d. rewrite fractionDigits_zero_text. lia.
Qed.

Lemma zero_renders_with_no_places_witness :
  valueToFixed (Num (ofN 0)) noPlaces = "0.0"
  /\ valueWithGasBufferToString (Str "abc") noPlaces = "0.0".
Proof.
  split.
  - apply (zero_renders_with_no_places (Num (ofN 0)) noPlaces); reflexivity.
  - apply (zero_renders_with_no_places (Str "abc") noPlaces); reflexivity.
Defined.

(** *** Fractional digits of the fixed rendering *)

(** C5, as the code has it.  When the abbreviation does not trigger and
    the canonical value is not an infinity, [valueToFixed] has exactly
    [decimalPlaces] characters after the decimal point, all of them
    digits, provided that [decimalPlaces >= 1] when the value is NaN or
    zero. *)
Theorem fixed_render_fraction_digits (value : RawValue) (options : Options) :
  aboveAbbreviationFloor value options = false ->
  (forall neg, valueToBigNumber value <> Infinity neg) ->
  (isNaN (valueToBigNumber value) || isZero (valueToBigNumber value) = true ->
   (1 <= decimalPlaces' options)%nat) ->
  fractionDigits (valueToFixed value options) = decimalPlaces' options
  /\ allDigits (afterChar "." (valueToFixed value options)) = true.
Proof.
  intros Hab Hfin Hd. unfold valueToFixed, fractionDigits.
  destruct (isNaN (valueToBigNumber value) || isZero (valueToBigNumber value))
    eqn:Hz.
  - specialize (Hd eq_refl).
    rewrite afterPoint_zero_text, length_repeatChar. split; [lia|].
    apply allDigits_repeat0.
  - rewrite Hab.
    destruct (valueToBigNumber value) as [| neg | neg c e].
    + discriminate Hz.
    + now destruct (Hfin neg).
    + rewrite afterPoint_toFixed. split.
      * apply length_digitsFixed.
      * apply allDigits_digitsFixed.
Qed.

Lemma fixed_render_fraction_digits_witness :
  fractionDigits (valueToFixed (Str "1234.5678") defaultOptions) = 2%nat
  /\ allDigits (afterChar "." (valueToFixed (Str "1234.5678") defaultOptions))
     = true.
Proof.
  apply (fixed_render_fraction_digits (Str "1234.5678") defaultOptions).
  - reflexivity.
  - intros neg. discriminate.
  - intros H. discriminate H.
Defined.

(** With no places configured the zero text still has one digit after
    the point, and an infinite value renders as a word without digits. *)
Lemma fixed_render_fraction_digits_fails :
  aboveAbbreviationFloor (Num (ofN 0)) noPlaces = false
  /\ decimalPlaces' noPlaces = 0%nat
  /\ valueToFixed (Num (ofN 0)) noPlaces = "0.0"
  /\ fractionDigits (valueToFixed (Num (ofN 0)) noPlaces) <> decimalPlaces' noPlaces
  /\ valueToFixed (Big (Infinity false)) defaultOptions = "Infinity"
  /\ fractionDigits (valueToFixed (Big (Infinity false)) defaultOptions)
     <> decimalPlaces' defaultOptions.
Proof. repeat split; discriminate. Qed.

(** *** Normalisation *)

(** C1, as the code has it.  Normalisation is a total function: an absent
    ([undefined], [null]), empty or otherwise falsy input gives exact
    zero; a non-empty text that is not a number gives NaN, not zero; and
    whenever the canonical value is NaN every rendering is the zero text
    and the buffered value is exact zero. *)
Theorem normalize_zero_or_NaN (value : RawValue) (options : Options) :
  (truthy value = false -> valueToBigNumber value = ofN 0)
  /\ (forall s, value = Str s -> s <> "" -> ofString s = NaN ->
      valueToBigNumber value = NaN)
  /\ (isNaN (valueToBigNumber value) = true ->
      valueToFixed value options = getFormattedZeroValue (decimalPlaces' options)
      /\ valueToString value options
         = getFormattedZeroValue (decimalPlaces' options)
      /\ valueWithGasBufferToFixed value options
         = getFormattedZeroValue (decimalPlaces' options)
      /\ valueWithGasBufferToString value options
         = getFormattedZeroValue (decimalPlaces' options)
      /\ valueWithGasBuffer value options = ofN 0).
Proof.
  split; [| split].
  - intros H. unfold valueToBigNumber. now rewrite H.
  - intros s -> Hs Hnum. unfold valueToBigNumber. simpl.
    destruct (String.eqb_spec s "") as [E | _]; [contradiction | exact Hnum].
  - intros H.
    assert (Hz : isNaN (valueToBigNumber value)
                 || isZero (valueToBigNumber value) = true) by now rewrite H.
    destruct (renders_of_zero value options Hz) as (A & B & C & D).
    repeat split; try assumption.
    unfold valueWithGasBuffer. now rewrite H.
Qed.

Lemma normalize_zero_or_NaN_witness :
  (valueToBigNumber Undefined = ofN 0
   /\ valueToBigNumber Null = ofN 0
   /\ valueToBigNumber (Str "") = ofN 0
   /\ valueToBigNumber (Num NaN) = ofN 0)
  /\ valueToBigNumber (Str "abc") = NaN
  /\ valueToString (Str "abc") defaultOptions = "0.00".
Proof.
  split; [split; [| split; [| split]] | split].
  - apply (proj1 (normalize_zero_or_NaN Undefined defaultOptions)). reflexivity.
  - apply (proj1 (normalize_zero_or_NaN Null defaultOptions)). reflexivity.
  - apply (proj1 (normalize_zero_or_NaN (Str "") defaultOptions)). reflexivity.
  - apply (proj1 (normalize_zero_or_NaN (Num NaN) defaultOptions)). reflexivity.
  - apply (proj1 (proj2 (normalize_zero_or_NaN (Str "abc") defaultOptions))
             "abc"); [reflexivity | discriminate | reflexivity].
  - apply (proj2 (proj2 (normalize_zero_or_NaN (Str "abc") defaultOptions))).
    reflexivity.
Defined.

(** A text that is not a number does not normalise to zero. *)
Lemma normalize_non_numeric_not_zero :
  valueToBigNumber (Str "abc") = NaN
  /\ valueToBigNumber (Str "abc") <> ofN 0
  /\ isZero (valueToBigNumber (Str "abc")) = false
  /\ eq (valueToBigNumber (Str "abc")) (ofN 0) = false.
Proof. repeat split. discriminate. Qed.

(** *** Abbreviation *)

Lemma digit_not_marker (ch : ascii) (s : string) :
  isDigit ch = true -> startsWith approx (String ch s) = false.
Proof.
  destruct ch as [[] [] [] [] [] [] [] []]; intros H;
    first [reflexivity | discriminate H].
Qed.

Lemma headIsDigit_not_marked (s : string) :
  headIsDigit s = true -> startsWith approx s = false.
Proof.
  destruct s as [|ch s]; [discriminate|]. apply digit_not_marker.
Qed.

Lemma headIsDigit_append (s t : string) :
  headIsDigit s = true -> headIsDigit (s ++ t) = true.
Proof. destruct s; [discriminate | trivial]. Qed.

Lemma headIsDigit_groupMin2 (s : string) :
  headIsDigit s = true -> headIsDigit (groupMin2 s) = true.
Proof.
  unfold groupMin2, group3. intros H.
  destruct (5 <=? String.length s)%nat; [|exact H].
  destruct s as [|ch s]; [discriminate|].
  destruct (Nat.modulo (String.length (String ch s)) 3); exact H.
Qed.

Lemma headIsDigit_plain (n : N) (pos : Z) : headIsDigit (plain n pos) = true.
Proof.
  unfold plain. destruct (normalize n pos) as [n' e'].
  destruct (0 <=? e').
  - apply headIsDigit_groupMin2, headIsDigit_digitsN.
  - apply headIsDigit_append, headIsDigit_groupMin2, headIsDigit_digitsN.
Qed.

(** The compact rendering never begins with the approximation marker. *)
Lemma compactFormat_not_marked (x : JSNumber) :
  startsWith approx (compactFormat x) = false.
Proof.
  destruct x as [| [] | [] c e]; try reflexivity.
  - unfold compactFormat. destruct (c =? 0)%N; [reflexivity|].
    destruct (roundCompact c (e - displayExponent c e)); reflexivity.
  - unfold compactFormat. destruct (c =? 0)%N; [reflexivity|].
    destruct (roundCompact c (e - displayExponent c e)) as [n pos].
    apply headIsDigit_not_marked. simpl.
    apply headIsDigit_append, headIsDigit_plain.
Qed.

Lemma startsWith_marker (s : string) : startsWith approx (approx ++ s) = true.
Proof. reflexivity. Qed.

(** What the equality test of [abbreviateNumber] compares the number
    with: the un-abbreviated rendering, or zero when there is none. *)
Lemma abbreviateNumber_cases (v : JSNumber) :
  abbreviateNumber v
  = if eq v (match unAbbreviateNumber (compactFormat v) with
             | Some b => b
             | None => ofN 0
             end)
    then compactFormat v
    else approx ++ compactFormat v.
Proof. reflexivity. Qed.

(** C2, as the code has it.  [abbreviateNumber v] is the compact
    rendering when [v] equals the number rebuilt from the rendering's unit
    suffix, zero standing in when the rendering has no suffix, and the
    rendering behind the marker otherwise; so it begins with the marker
    exactly when that equality fails.  For a [v] that is not zero, a
    result without the marker un-abbreviates to a number equal to [v]. *)
Theorem abbreviate_round_trip (v : JSNumber) :
  let rebuilt :=
    match unAbbreviateNumber (compactFormat v) with
    | Some b => b
    | None => ofN 0
    end in
  abbreviateNumber v
  = (if eq v rebuilt then compactFormat v else approx ++ compactFormat v)
  /\ startsWith approx (abbreviateNumber v) = negb (eq v rebuilt)
  /\ (eq v (ofN 0) = false ->
      startsWith approx (abbreviateNumber v) = false ->
      exists w, unAbbreviateNumber (abbreviateNumber v) = Some w
                /\ eq v w = true).
Proof.
  intros rebuilt. split; [apply abbreviateNumber_cases | split].
  - rewrite abbreviateNumber_cases. fold rebuilt.
    destruct (eq v rebuilt); simpl negb.
    + apply compactFormat_not_marked.
    + apply startsWith_marker.
  - intros Hnz. rewrite abbreviateNumber_cases. fold rebuilt.
    destruct (eq v rebuilt) eqn:E.
    + intros _. subst rebuilt.
      destruct (unAbbreviateNumber (compactFormat v)) as [w|].
      * exists w. split; [reflexivity | exact E].
      * congruence.
    + rewrite startsWith_marker. discriminate.
Qed.

Lemma abbreviate_round_trip_witness :
  exists w, unAbbreviateNumber (abbreviateNumber (ofN 1200000)) = Some w
            /\ eq (ofN 1200000) w = true.
Proof.
  apply (proj2 (proj2 (abbreviate_round_trip (ofN 1200000)))); reflexivity.
Defined.

(** Zero is rendered without the marker although its rendering has no
    suffix to parse back. *)
Lemma abbreviate_zero_not_recovered :
  abbreviateNumber (ofN 0) = "0"
  /\ startsWith approx (abbreviateNumber (ofN 0)) = false
  /\ unAbbreviateNumber (abbreviateNumber (ofN 0)) = None.
Proof. repeat split. Qed.

Lemma lastChar_groupMin2 (s : string) : lastChar (groupMin2 s) = lastChar s.
Proof.
  unfold groupMin2, group3. destruct (5 <=? String.length s)%nat;
    [apply lastChar_groupFrom | reflexivity].
Qed.

Lemma lastIsDigit_plain (n : N) (pos : Z) : lastIsDigit (plain n pos) = true.
Proof.
  unfold plain. destruct (normalize n pos) as [n' e'].
  destruct (Z.leb_spec 0 e') as [H | H].
  - unfold lastIsDigit. rewrite lastChar_groupMin2. apply lastIsDigit_digitsN.
  - destruct (Z.to_nat (- e')) as [|k] eqn:K; [lia|].
    apply lastIsDigit_append; [discriminate|].
    unfold fracPart. apply lastIsDigit_append.
    + simpl. apply append_nonempty. discriminate.
    + apply allDigits_lastIsDigit; [apply allDigits_digitsFixed|].
      simpl. apply append_nonempty. discriminate.
Qed.

Lemma digit_no_unit (ch : ascii) : isDigit ch = true -> units ch = None.
Proof.
  destruct ch as [[] [] [] [] [] [] [] []]; intros H;
    first [reflexivity | discriminate H].
Qed.

Lemma lastIsDigit_no_suffix (s : string) :
  lastIsDigit s = true -> hasUnitSuffix s = false.
Proof.
  unfold lastIsDigit, hasUnitSuffix. destruct (lastChar s) as [ch|];
    [|discriminate].
  intros H. now rewrite (digit_no_unit ch H).
Qed.

Lemma compactExponent_cases (m : Z) :
  compactExponent m = 0 \/ compactExponent m = 3 \/ compactExponent m = 6
  \/ compactExponent m = 9 \/ compactExponent m = 12.
Proof.
  unfold compactExponent.
  destruct (m <? 3); [tauto|]. destruct (m <? 6); [tauto|].
  destruct (m <? 9); [tauto|]. destruct (m <? 12); tauto.
Qed.

Lemma displayExponent_cases (c : N) (e : Z) :
  displayExponent c e = 0 \/ displayExponent c e = 3
  \/ displayExponent c e = 6 \/ displayExponent c e = 9
  \/ displayExponent c e = 12.
Proof.
  unfold displayExponent. destruct (roundCompact c _) as [n pos].
  destruct (_ <? _); apply compactExponent_cases.
Qed.

(** A finite number that is not zero is rendered with a unit letter
    exactly when it is displayed in a power of ten other than one. *)
Lemma hasUnitSuffix_compactFormat (neg : bool) (c : N) (e : Z) :
  c <> 0%N ->
  hasUnitSuffix (compactFormat (Finite neg c e))
  = negb (displayExponent c e =? 0).
Proof.
  intros Hc. unfold compactFormat.
  destruct (N.eqb_spec c 0) as [E | _]; [contradiction|].
  destruct (roundCompact c (e - displayExponent c e)) as [n pos].
  assert (suffixed : forall s t u,
            u <> "" -> hasUnitSuffix (s ++ t ++ u) = hasUnitSuffix u).
  { intros s t u Hu. unfold hasUnitSuffix.
    rewrite lastChar_append by now apply append_nonempty.
    now rewrite lastChar_append. }
  destruct (displayExponent_cases c e) as [H | [H | [H | [H | H]]]];
    rewrite H; simpl compactSuffix; simpl negb.
  - rewrite append_empty. apply lastIsDigit_no_suffix.
    apply lastIsDigit_append; [|apply lastIsDigit_plain].
    pose proof (lastIsDigit_plain n pos) as L. unfold lastIsDigit in L.
    destruct (plain n pos); [discriminate L | discriminate].
  - apply suffixed. discriminate.
  - apply suffixed. discriminate.
  - apply suffixed. discriminate.
  - apply suffixed. discriminate.
Qed.

(** Below one hundred in magnitude the display exponent is zero. *)
Lemma displayExponent_small (c : N) (e : Z) :
  magnitude c e < 2 -> displayExponent c e = 0.
Proof.
  intros H. unfold displayExponent.
  assert (E0 : compactExponent (magnitude c e) = 0)
    by (unfold compactExponent; destruct (Z.ltb_spec (magnitude c e) 3); lia).
  assert (E1 : compactExponent (magnitude c e + 1) = 0)
    by (unfold compactExponent;
        destruct (Z.ltb_spec (magnitude c e + 1) 3); lia).
  rewrite E0, E1. destruct (roundCompact c _). now destruct (_ <? _).
Qed.

Lemma unAbbreviate_without_suffix (s : string) :
  hasUnitSuffix s = false -> unAbbreviateNumber s = None.
Proof.
  unfold hasUnitSuffix, unAbbreviateNumber.
  destruct (lastChar s) as [ch|]; [|reflexivity].
  destruct (units ch); [discriminate | reflexivity].
Qed.

(** C10. For a number that is not zero and whose compact rendering does
    not end in [K], [M], [B] or [T], [abbreviateNumber] returns the
    rendering behind the marker: nothing is un-abbreviated and the
    equality test compares the number with zero. *)
Theorem abbreviate_without_suffix (v : JSNumber) :
  eq v (ofN 0) = false ->
  hasUnitSuffix (compactFormat v) = false ->
  unAbbreviateNumber (compactFormat v) = None
  /\ abbreviateNumber v = approx ++ compactFormat v.
Proof.
  intros Hnz Hs.
  pose proof (unAbbreviate_without_suffix _ Hs) as U.
  split; [exact U|].
  rewrite abbreviateNumber_cases, U, Hnz. reflexivity.
Qed.

Lemma abbreviate_without_suffix_witness :
  compactFormat (ofN 500) = "500"
  /\ unAbbreviateNumber (compactFormat (ofN 500)) = None
  /\ abbreviateNumber (ofN 500) = approx ++ "500".
Proof.
  split; [reflexivity|].
  apply (abbreviate_without_suffix (ofN 500)); reflexivity.
Defined.

(** Every finite number below one hundred in magnitude, zero apart, is
    marked as approximate. *)
Lemma abbreviate_below_hundred (neg : bool) (c : N) (e : Z) :
  c <> 0%N -> magnitude c e < 2 ->
  abbreviateNumber (Finite neg c e)
  = approx ++ compactFormat (Finite neg c e).
Proof.
  intros Hc Hm.
  assert (S : hasUnitSuffix (compactFormat (Finite neg c e)) = false)
    by now rewrite hasUnitSuffix_compactFormat, displayExponent_small.
  assert (Z0 : eq (Finite neg c e) (ofN 0) = false).
  { unfold eq. rewrite compare_zero.
    destruct (Z.compare_spec (signed neg c) 0) as [E | L | G];
      try reflexivity.
    unfold signed in E. destruct neg; lia. }
  rewrite abbreviateNumber_cases, (unAbbreviate_without_suffix _ S), Z0.
  reflexivity.
Qed.

(** Every whole number from 1 to 999 is rendered digit for digit and
    still marked as approximate. *)
Lemma abbreviate_below_thousand :
  forallb (fun n => (abbreviateNumber (ofN n) =? approx ++ digitsN n)%string)
          (map N.of_nat (seq 1 999)) = true.
Proof. vm_compute. reflexivity. Qed.

(** C7, as the code has it.  For the input 1234455 with an abbreviation
    floor of 1000, [valueToFixed] is the compact text behind the
    approximation marker: 1.2M rebuilds to 1200000, not to the input. *)
Theorem fixed_render_1234455 :
  valueToFixed (Num (ofN 1234455)) (floorAt (ofN 1000)) = approx ++ "1.2M".
Proof. vm_compute. reflexivity. Qed.

Lemma fixed_render_1234455_marked :
  valueToFixed (Num (ofN 1234455)) (floorAt (ofN 1000)) <> "1.2M"
  /\ compactFormat (toNumber (ofN 1234455)) = "1.2M"
  /\ unAbbreviateNumber "1.2M" = Some (Finite false 12000000 (-1))
  /\ eq (ofN 1234455) (Finite false 12000000 (-1)) = false.
Proof. repeat split. vm_compute. discriminate. Qed.

(** *** The buffered value *)

Lemma lte_false_finite (a b : bool) (c1 c2 : N) (e1 e2 : Z) :
  lte (Finite a c1 e1) (Finite b c2 e2) = false ->
  0 < scaled a c1 e1 (Z.min e1 e2) - scaled b c2 e2 (Z.min e1 e2).
Proof.
  unfold lte, compare.
  destruct (Z.compare_spec (scaled a c1 e1 (Z.min e1 e2))
                           (scaled b c2 e2 (Z.min e1 e2)));
    [discriminate | discriminate | lia].
Qed.

Lemma minus_positive (a b : bool) (c1 c2 : N) (e1 e2 : Z) :
  lte (Finite a c1 e1) (Finite b c2 e2) = false ->
  gte (minus (Finite a c1 e1) (Finite b c2 e2)) (ofN 0) = true.
Proof.
  intros H. apply lte_false_finite in H. unfold minus.
  destruct (Z.eqb_spec (scaled a c1 e1 (Z.min e1 e2)
                        - scaled b c2 e2 (Z.min e1 e2)) 0) as [E | E];
    [lia|].
  unfold gte. rewrite compare_zero, signed_abs.
  destruct (Z.compare_spec
              (scaled a c1 e1 (Z.min e1 e2) - scaled b c2 e2 (Z.min e1 e2)) 0);
    [reflexivity | lia | reflexivity].
Qed.

(** C4. For a fee that is at least zero, [valueWithGasBuffer] is exact
    zero when the canonical value is NaN or at most the fee, and the
    value minus the fee otherwise, an exact difference; so the buffered
    value is never NaN and never below zero. *)
Theorem buffered_value_floor (value : RawValue) (options : Options) :
  gte (injFee' options) (ofN 0) = true ->
  let v := valueToBigNumber value in
  let fee := injFee' options in
  let b := valueWithGasBuffer value options in
  (isNaN v || lte v fee = true -> b = ofN 0)
  /\ (isNaN v || lte v fee = false ->
      b = minus v fee
      /\ (isFinite v = true -> (valueQ b == valueQ v - valueQ fee)%Q))
  /\ gte b (ofN 0) = true
  /\ isNaN b = false.
Proof.
  intros Hfee v fee b. subst b. unfold valueWithGasBuffer. fold v fee.
  destruct (isNaN v || lte v fee) eqn:E.
  - repeat split; discriminate.
  - assert (G : gte (minus v fee) (ofN 0) = true
                /\ isNaN (minus v fee) = false
                /\ (isFinite v = true ->
                    (valueQ (minus v fee) == valueQ v - valueQ fee)%Q)).
    { fold fee in Hfee. clearbody v fee.
      destruct v as [| a | a c1 e1]; [discriminate E | |];
        destruct fee as [| b | b c2 e2]; try discriminate Hfee.
      - destruct a, b; discriminate E || discriminate Hfee.
      - destruct a; [discriminate E|]. repeat split. discriminate.
      - destruct b; discriminate E || discriminate Hfee.
      - simpl in E. split; [now apply minus_positive|]. split.
        + unfold minus. now destruct (_ =? 0).
        + intros _. apply minus_exact. }
    destruct G as (G1 & G2 & G3).
    repeat split; solve [discriminate | assumption].
Qed.

Lemma buffered_value_floor_witness :
  valueWithGasBuffer (Str "0.004") defaultOptions = ofN 0
  /\ valueWithGasBuffer (Str "0.01") defaultOptions
     = minus (ofString "0.01") DEFAULT_INJ_FEE
  /\ gte (valueWithGasBuffer (Str "0.01") defaultOptions) (ofN 0) = true.
Proof.
  split; [| split].
  - apply (proj1 (buffered_value_floor (Str "0.004") defaultOptions eq_refl)).
    reflexivity.
  - apply (proj1 (proj2 (buffered_value_floor (Str "0.01") defaultOptions
                           eq_refl))).
    reflexivity.
  - apply (proj2 (proj2 (buffered_value_floor (Str "0.01") defaultOptions
                           eq_refl))).
Defined.

(** *** Resolution of the minimal display *)


(** The branch of [getNumberMinimalDecimals] is chosen by the signed
    comparison of the value with the threshold. *)
Lemma getNumberMinimalDecimals_absolute (v : BigNumber) (m : nat) :
  eq v (ofN 0) = false ->
  getNumberMinimalDecimals v (Some m) true
  = if lte v (shiftedBy (ofN 1) (- Z.of_nat m))
    then
      let d := Nat.min (getExactDecimalsFromNumber (toFixedExact v))
                       DEFAULT_MAX_MINIMAL_DISPLAY_DECIMAL_PLACES in
      {| minimalDecimalPlaces := d;
         minimalDisplayAmount := shiftedBy (ofN 1) (- Z.of_nat d) |}
    else
      {| minimalDecimalPlaces := m;
         minimalDisplayAmount := shiftedBy (ofN 1) (- Z.of_nat m) |}.
Proof.
  intros Hnz. unfold getNumberMinimalDecimals. rewrite Hnz.
  destruct (lte v _); simpl andb; cbv iota; [|reflexivity].
  destruct (Nat.ltb_spec DEFAULT_MAX_MINIMAL_DISPLAY_DECIMAL_PLACES
              (getExactDecimalsFromNumber (toFixedExact v))) as [L | L].
  - rewrite Nat.min_r by lia. reflexivity.
  - rewrite Nat.min_l by lia. reflexivity.
Qed.

(** C3 at the value -5 with four minimal places: the magnitude 5 is above
    the threshold 0.0001, yet the signed comparison holds and the
    exact-precision branch is taken: zero places and the threshold 1
    instead of four places and 0.0001.  With twenty minimal places the
    grouped rendering of -0.000000000000001 takes the "less than" form
    while that of 0.000000000000001 does not. *)
Theorem minimal_decimals_negative_value :
  lte (abs (ofString "-5")) (shiftedBy (ofN 1) (-4)) = false
  /\ lte (ofString "-5") (shiftedBy (ofN 1) (-4)) = true
  /\ getNumberMinimalDecimals (ofString "-5") (Some 4%nat) true
     = {| minimalDecimalPlaces := 0;
          minimalDisplayAmount := Finite false 1 0 |}
  /\ getNumberMinimalDecimals (ofString "5") (Some 4%nat) true
     = {| minimalDecimalPlaces := 4;
          minimalDisplayAmount := Finite false 1 (-4) |}
  /\ valueToString (Str "-0.000000000000001") (absolutePlaces 20 true)
     = "< 0.000000000001"
  /\ valueToString (Str "0.000000000000001") (absolutePlaces 20 true)
     = "0.00".
Proof. repeat split. Qed.

(** C6 at its input: the value 0.00000001 has eight exact decimals, the
    resolved threshold is 0.00000001 itself, the value is not below it,
    and [valueToString] is the value cut to two places.  The value of the
    comment in the source behaves alike. *)
Theorem grouped_render_small_value :
  getNumberMinimalDecimals (ofString "0.00000001") (Some 4%nat) true
  = {| minimalDecimalPlaces := 8;
       minimalDisplayAmount := Finite false 1 (-8) |}
  /\ lt (abs (ofString "0.00000001")) (Finite false 1 (-8)) = false
  /\ valueToString (Str "0.00000001") (absolutePlaces 4 true) = "0.00"
  /\ valueToString (Str "0.00000001") (absolutePlaces 4 false) = "< 0.0001"
  /\ valueToString (Str "0.000001010102") (absolutePlaces 4 true) = "0.00".
Proof. repeat split. Qed.

(** *** The buffered grouped rendering *)

Lemma aboveAbbreviationFloor_withFee (value : RawValue) (options : Options)
    (fee : option JSNumber) :
  aboveAbbreviationFloor value (withFee options fee)
  = aboveAbbreviationFloor value options.
Proof. reflexivity. Qed.

(** C8. In [valueWithGasBufferToString] the zero and abbreviation guards
    and the resolution of the minimal display read the canonical value
    before buffering: whether the abbreviation triggers does not depend
    on the fee, and when a guard triggers the result is that of
    [valueToString] for every fee.  Otherwise the result is the
    less-than-or-grouped rendering of the buffered value against the
    threshold resolved from the unbuffered one, the same step that
    [valueToString] applies to the unbuffered value. *)
Theorem buffered_grouped_render (value : RawValue) (options : Options) :
  let v := valueToBigNumber value in
  let md :=
    getNumberMinimalDecimals v (minimalDecimalPlacesOption options)
      (displayAbsoluteDecimalPlace' options) in
  let render :=
    lessThanOrGrouped md (decimalPlaces' options) (roundingMode' options) in
  (forall fee,
     aboveAbbreviationFloor value (withFee options fee)
     = aboveAbbreviationFloor value options)
  /\ (isNaN v || isZero v || aboveAbbreviationFloor value options = true ->
      forall fee,
        valueWithGasBufferToString value (withFee options fee)
        = valueToString value options)
  /\ (isNaN v || isZero v || aboveAbbreviationFloor value options = false ->
      valueToString value options = render v
      /\ valueWithGasBufferToString value options
         = render (valueWithGasBuffer value options)).
Proof.
  intros v md render. split; [reflexivity | split].
  - intros H fee. unfold valueWithGasBufferToString, valueToString.
    rewrite aboveAbbreviationFloor_withFee. fold v.
    destruct (isNaN v || isZero v); [reflexivity|].
    simpl in H. rewrite H. reflexivity.
  - intros H. apply orb_false_elim in H. destruct H as [Hz Ha].
    unfold valueWithGasBufferToString, valueToString. fold v.
    rewrite Hz, Ha. split; reflexivity.
Qed.

Lemma buffered_grouped_render_witness :
  valueWithGasBufferToString (Num (ofN 1200000))
    (withFee (floorAt (ofN 1000)) (Some (ofN 700000))) = "1.2M"
  /\ valueToString (Str "0.00505") defaultOptions = "0.00"
  /\ valueWithGasBufferToString (Str "0.00505") defaultOptions = "< 0.0001".
Proof.
  split; [| split].
  - rewrite (proj1 (proj2 (buffered_grouped_render (Num (ofN 1200000))
                             (floorAt (ofN 1000)))) eq_refl
               (Some (ofN 700000))).
    reflexivity.
  - rewrite (proj1 (proj2 (proj2 (buffered_grouped_render (Str "0.00505")
                                    defaultOptions)) eq_refl)).
    reflexivity.
  - rewrite (proj2 (proj2 (proj2 (buffered_grouped_render (Str "0.00505")
                                    defaultOptions)) eq_refl)).
    reflexivity.
Defined.

End FormatterFacts.

(* ------------------------------------------------------------------ *)
(** ** Further properties of the renderings *)

Module RenderingFacts.
Import Text BN Intl Formatter Observe TextFacts BNFacts FormatterFacts.

(** *** Separators *)

Lemma removeChar_append (ch : ascii) (s t : string) :
  removeChar ch (s ++ t) = removeChar ch s ++ removeChar ch t.
Proof.
  induction s as [|x s IH]; simpl; [reflexivity|].
  destruct (Ascii.eqb x ch); simpl; now rewrite IH.
Qed.













(** *** The less-than text *)

Lemma repeatChar_snoc (ch : ascii) (k : nat) :
  repeatChar ch k ++ String ch "" = repeatChar ch (S k).
Proof. induction k as [|k IH]; simpl; [reflexivity | now rewrite IH]. Qed.

Lemma digitsFixed_zero (k : nat) : digitsFixed k 0 = repeatChar "0" k.
Proof.
  induction k as [|k IH]; [reflexivity|].
  change (digitsFixed (S k) 0) with (digitsFixed k 0 ++ String "0" "").
  rewrite IH. apply repeatChar_snoc.
Qed.

Lemma digitsFixed_one (k : nat) :
  digitsFixed (S k) 1 = repeatChar "0" k ++ "1".
Proof.
  change (digitsFixed (S k) 1) with (digitsFixed k 0 ++ String "1" "").
  now rewrite digitsFixed_zero.
Qed.

Lemma one_below_power (k : nat) : (1 < 10 ^ N.of_nat (S k))%N.
Proof. apply N.pow_gt_1; lia. Qed.

Lemma toFormat_threshold (p : nat) (rm : RoundingMode) :
  toFormat (shiftedBy (ofN 1) (- Z.of_nat p)) p rm = thresholdText p.
Proof.
  unfold shiftedBy, ofN, toFormat, roundTo.
  replace (0 + - Z.of_nat p + Z.of_nat p) with 0 by lia.
  change (1 * 10 ^ Z.to_N 0)%N with 1%N. cbv match.
  destruct p as [|k]; [reflexivity|].
  unfold signText, intDigits, fracPart.
  rewrite (N.div_small 1), (N.mod_small 1) by apply one_below_power.
  rewrite digitsFixed_one. reflexivity.
Qed.

Lemma nonzero_not_eq_zero (v : BigNumber) :
  isNaN v || isZero v = false -> eq v (ofN 0) = false.
Proof.
  intros H. destruct v as [| [] | neg c e]; try reflexivity.
  simpl in H. unfold eq. rewrite compare_zero.
  destruct (N.eqb_spec c 0) as [E | E]; [discriminate|].
  destruct (Z.compare_spec (signed neg c) 0) as [S0 | L | G];
    try reflexivity.
  unfold signed in S0. destruct neg; lia.
Qed.

(** Whatever branch resolves it, the threshold of a value that is not
    zero is [10^-p] for the resolved number of places [p]. *)
Lemma getNumberMinimalDecimals_amount (v : BigNumber) (m : option nat)
    (a : bool) :
  eq v (ofN 0) = false ->
  minimalDisplayAmount (getNumberMinimalDecimals v m a)
  = shiftedBy (ofN 1)
      (- Z.of_nat (minimalDecimalPlaces (getNumberMinimalDecimals v m a))).
Proof.
  intros H. unfold getNumberMinimalDecimals. rewrite H.
  destruct (lte v _ && a); reflexivity.
Qed.

(** The threshold of the less-than form, rendered. *)
Lemma threshold_rendered (v : BigNumber) (m : option nat) (a : bool) :
  isNaN v || isZero v = false ->
  toFormat (minimalDisplayAmount (getNumberMinimalDecimals v m a))
           (minimalDecimalPlaces (getNumberMinimalDecimals v m a))
           ROUND_HALF_UP
  = thresholdText (minimalDecimalPlaces (getNumberMinimalDecimals v m a)).
Proof.
  intros Hz. rewrite getNumberMinimalDecimals_amount at 1
    by now apply nonzero_not_eq_zero.
  apply toFormat_threshold.
Qed.

Lemma valueToString_less_than (value : RawValue) (options : Options) :
  isNaN (valueToBigNumber value) || isZero (valueToBigNumber value) = false ->
  aboveAbbreviationFloor value options = false ->
  lt (abs (valueToBigNumber value))
     (minimalDisplayAmount
        (getNumberMinimalDecimals (valueToBigNumber value)
           (minimalDecimalPlacesOption options)
           (displayAbsoluteDecimalPlace' options))) = true ->
  valueToString value options
  = "< " ++ thresholdText
              (minimalDecimalPlaces
                 (getNumberMinimalDecimals (valueToBigNumber value)
                    (minimalDecimalPlacesOption options)
                    (displayAbsoluteDecimalPlace' options))).
Proof.
  intros Hz Ha H. unfold valueToString. rewrite Hz, Ha. cbv zeta.
  now rewrite H, (threshold_rendered _ _ _ Hz).
Qed.

(** X2. When a grouped rendering takes the less-than form, the text is
    the less-than sign, a space and the threshold [10^-p] written with
    exactly [p] decimals, [p] being the resolved number of places: ["< 1"]
    for no places, ["< 0.0...01"] otherwise. *)
Theorem less_than_text (value : RawValue) (options : Options) :
  let v := valueToBigNumber value in
  let md :=
    getNumberMinimalDecimals v (minimalDecimalPlacesOption options)
      (displayAbsoluteDecimalPlace' options) in
  isNaN v || isZero v = false ->
  aboveAbbreviationFloor value options = false ->
  (lt (abs v) (minimalDisplayAmount md) = true ->
   valueToString value options
   = "< " ++ thresholdText (minimalDecimalPlaces md))
  /\ (lt (abs (valueWithGasBuffer value options)) (minimalDisplayAmount md)
      = true ->
      valueWithGasBufferToString value options
      = "< " ++ thresholdText (minimalDecimalPlaces md)).
Proof.
  intros v md Hz Ha. split; intros H.
  - now apply valueToString_less_than.
  - unfold valueWithGasBufferToString. fold v. rewrite Hz, Ha. cbv zeta.
    fold md. rewrite H. subst md. now rewrite (threshold_rendered _ _ _ Hz).
Qed.

Lemma less_than_text_witness :
  valueToString (Str "0.00000001") (absolutePlaces 6 false) = "< 0.000001"
  /\ valueWithGasBufferToString (Str "0.00505") defaultOptions = "< 0.0001".
Proof.
  split.
  - apply (proj1 (less_than_text (Str "0.00000001") (absolutePlaces 6 false)
                    eq_refl eq_refl)).
    reflexivity.
  - apply (proj2 (less_than_text (Str "0.00505") defaultOptions
                    eq_refl eq_refl)).
    reflexivity.
Defined.

(** *** Fractional digits of the grouped and buffered renderings *)

Lemma digit_or_comma_no_point (s : string) : forall i,
  includesChar "." (groupFrom s i) = includesChar "." s.
Proof.
  induction s as [|x s IH]; intros i; [reflexivity|].
  destruct i; [rewrite groupFrom_0 | rewrite groupFrom_S];
    simpl; now rewrite IH.
Qed.

Lemma group3_no_point (s : string) :
  allDigits s = true -> includesChar "." (group3 s) = false.
Proof.
  intros H. unfold group3. rewrite digit_or_comma_no_point.
  now apply allDigits_no_point.
Qed.

Lemma afterPoint_toFormat (neg : bool) (c : N) (e : Z) (dp : nat)
    (rm : RoundingMode) :
  afterChar "." (toFormat (Finite neg c e) dp rm)
  = digitsFixed dp (roundTo rm neg c e dp mod 10 ^ N.of_nat dp).
Proof.
  unfold toFormat.
  rewrite afterChar_append by apply signText_no_point.
  rewrite afterChar_append
    by (apply group3_no_point, allDigits_digitsN).
  apply afterPoint_fracPart.
Qed.

Lemma fractionDigits_toFormat (x : BigNumber) (dp : nat) (rm : RoundingMode) :
  isFinite x = true -> fractionDigits (toFormat x dp rm) = dp.
Proof.
  destruct x as [| neg | neg c e]; try discriminate. intros _.
  unfold fractionDigits. rewrite afterPoint_toFormat.
  apply length_digitsFixed.
Qed.

Lemma fractionDigits_toFixed (x : BigNumber) (dp : nat) (rm : RoundingMode) :
  isFinite x = true -> fractionDigits (toFixed x dp rm) = dp.
Proof.
  destruct x as [| neg | neg c e]; try discriminate. intros _.
  unfold fractionDigits. rewrite afterPoint_toFixed.
  apply length_digitsFixed.
Qed.

Lemma fractionDigits_thresholdText (p : nat) :
  fractionDigits ("< " ++ thresholdText p) = p.
Proof.
  destruct p as [|k]; [reflexivity|].
  unfold fractionDigits. simpl.
  rewrite length_append, length_repeatChar. simpl. lia.
Qed.

(** X3. Where no abbreviation applies and the canonical value is finite
    and not zero, [valueToString] has as many digits after the point as
    the resolved minimal places in the less-than form, and as
    [decimalPlaces] otherwise. *)
Theorem grouped_render_fraction_digits (value : RawValue) (options : Options) :
  let v := valueToBigNumber value in
  let md :=
    getNumberMinimalDecimals v (minimalDecimalPlacesOption options)
      (displayAbsoluteDecimalPlace' options) in
  isFinite v = true ->
  isZero v = false ->
  aboveAbbreviationFloor value options = false ->
  fractionDigits (valueToString value options)
  = if lt (abs v) (minimalDisplayAmount md)
    then minimalDecimalPlaces md
    else decimalPlaces' options.
Proof.
  intros v md Hf Hz Ha.
  assert (Hg : isNaN v || isZero v = false)
    by (rewrite Hz; destruct v; [discriminate Hf | reflexivity | reflexivity]).
  destruct (lt (abs v) (minimalDisplayAmount md)) eqn:L.
  - rewrite (valueToString_less_than value options Hg Ha L).
    apply fractionDigits_thresholdText.
  - unfold valueToString. fold v. rewrite Hg, Ha. cbv zeta. fold md.
    rewrite L. now apply fractionDigits_toFormat.
Qed.

Lemma grouped_render_fraction_digits_witness :
  fractionDigits (valueToString (Str "1234567.891") defaultOptions) = 2%nat
  /\ fractionDigits (valueToString (Str "0.00001") defaultOptions) = 4%nat.
Proof.
  split.
  - apply (grouped_render_fraction_digits (Str "1234567.891") defaultOptions);
      reflexivity.
  - apply (grouped_render_fraction_digits (Str "0.00001") defaultOptions);
      reflexivity.
Defined.

(** X4. [valueWithGasBufferToFixed] has exactly [decimalPlaces] digits
    after the point whenever the buffered value is finite, the zero text
    of a NaN or zero input needing [decimalPlaces >= 1]; an abbreviation
    floor makes no difference to it. *)
Theorem buffered_fixed_fraction_digits (value : RawValue) (options : Options) :
  isFinite (valueWithGasBuffer value options) = true ->
  (isNaN (valueToBigNumber value) || isZero (valueToBigNumber value) = true ->
   (1 <= decimalPlaces' options)%nat) ->
  fractionDigits (valueWithGasBufferToFixed value options)
  = decimalPlaces' options
  /\ forall floor,
       valueWithGasBufferToFixed value
         {| decimalPlaces := decimalPlaces options;
            minimalDecimalPlacesOption := minimalDecimalPlacesOption options;
            abbreviationFloor := floor;
            injFee := injFee options;
            roundingMode := roundingMode options;
            displayAbsoluteDecimalPlace :=
              displayAbsoluteDecimalPlace options |}
       = valueWithGasBufferToFixed value options.
Proof.
  intros Hf Hd. split; [|reflexivity].
  unfold valueWithGasBufferToFixed.
  destruct (isNaN _ || isZero _).
  - rewrite fractionDigits_zero_text. specialize (Hd eq_refl). lia.
  - now apply fractionDigits_toFixed.
Qed.

Lemma buffered_fixed_fraction_digits_witness :
  fractionDigits
    (valueWithGasBufferToFixed (Num (ofN 1234455)) (floorAt (ofN 1000)))
  = 2%nat.
Proof.
  apply (buffered_fixed_fraction_digits (Num (ofN 1234455))
           (floorAt (ofN 1000))).
  - reflexivity.
  - intros H. discriminate H.
Defined.

(** *** Sign of the buffered renderings *)

Lemma minus_not_negative (a b : bool) (c1 c2 : N) (e1 e2 : Z) :
  lte (Finite a c1 e1) (Finite b c2 e2) = false ->
  negative (minus (Finite a c1 e1) (Finite b c2 e2)) = false.
Proof.
  intros H. apply lte_false_finite in H. unfold minus.
  destruct (Z.eqb_spec (scaled a c1 e1 (Z.min e1 e2)
                        - scaled b c2 e2 (Z.min e1 e2)) 0) as [E | E];
    [lia|].
  simpl. destruct (Z.ltb_spec (scaled a c1 e1 (Z.min e1 e2)
                               - scaled b c2 e2 (Z.min e1 e2)) 0);
    [lia | reflexivity].
Qed.

Lemma valueWithGasBuffer_not_negative (value : RawValue) (options : Options) :
  gte (injFee' options) (ofN 0) = true ->
  negative (valueWithGasBuffer value options) = false.
Proof.
  intros Hfee. unfold valueWithGasBuffer.
  destruct (isNaN _ || lte _ _) eqn:E; [reflexivity|].
  destruct (valueToBigNumber value) as [| a | a c1 e1]; [discriminate E | |];
    destruct (injFee' options) as [| b | b c2 e2]; try discriminate Hfee.
  - destruct a, b; discriminate E || discriminate Hfee.
  - destruct a; [discriminate E | reflexivity].
  - destruct b; discriminate E || discriminate Hfee.
  - simpl in E. now apply minus_not_negative.
Qed.

Lemma digit_not_minus (ch : ascii) (s : string) :
  isDigit ch = true -> startsWith "-" (String ch s) = false.
Proof.
  destruct ch as [[] [] [] [] [] [] [] []]; intros H;
    first [reflexivity | discriminate H].
Qed.

Lemma headIsDigit_not_minus (s : string) :
  headIsDigit s = true -> startsWith "-" s = false.
Proof. destruct s as [|ch s]; [discriminate | apply digit_not_minus]. Qed.

Lemma headIsDigit_group3 (s : string) :
  headIsDigit s = true -> headIsDigit (group3 s) = true.
Proof.
  unfold group3. intros H. destruct s as [|ch s]; [discriminate|].
  destruct (Nat.modulo (String.length (String ch s)) 3); exact H.
Qed.

Lemma signText_not_negative (neg : bool) (c : N) :
  negative (Finite neg c 0) = false -> signText neg c = "".
Proof. unfold negative, signText. now intros ->. Qed.

Lemma toFixed_not_negative (x : BigNumber) (dp : nat) (rm : RoundingMode) :
  negative x = false -> startsWith "-" (toFixed x dp rm) = false.
Proof.
  destruct x as [| [] | neg c e]; try discriminate; try reflexivity.
  intros H. unfold toFixed. rewrite (signText_not_negative neg c H).
  apply headIsDigit_not_minus. simpl.
  apply headIsDigit_append, headIsDigit_digitsN.
Qed.

Lemma toFormat_not_negative (x : BigNumber) (dp : nat) (rm : RoundingMode) :
  negative x = false -> startsWith "-" (toFormat x dp rm) = false.
Proof.
  destruct x as [| [] | neg c e]; try discriminate; try reflexivity.
  intros H. unfold toFormat. rewrite (signText_not_negative neg c H).
  apply headIsDigit_not_minus. simpl.
  apply headIsDigit_append, headIsDigit_group3, headIsDigit_digitsN.
Qed.

Lemma zero_text_not_negative (d : nat) :
  startsWith "-" (getFormattedZeroValue d) = false.
Proof. destruct d; reflexivity. Qed.

(** X5. With a fee that is at least zero the buffered renderings never
    show a negative number: [valueWithGasBufferToFixed] never begins with
    a minus sign, and neither does [valueWithGasBufferToString] where no
    abbreviation applies. *)
Theorem buffered_renders_not_negative (value : RawValue) (options : Options) :
  gte (injFee' options) (ofN 0) = true ->
  startsWith "-" (valueWithGasBufferToFixed value options) = false
  /\ (aboveAbbreviationFloor value options = false ->
      startsWith "-" (valueWithGasBufferToString value options) = false).
Proof.
  intros Hfee.
  pose proof (valueWithGasBuffer_not_negative value options Hfee) as Hn.
  split.
  - unfold valueWithGasBufferToFixed.
    destruct (isNaN _ || isZero _);
      [apply zero_text_not_negative | now apply toFixed_not_negative].
  - intros Ha. unfold valueWithGasBufferToString.
    destruct (isNaN _ || isZero _); [apply zero_text_not_negative|].
    rewrite Ha. cbv zeta.
    destruct (lt _ _); [reflexivity | now apply toFormat_not_negative].
Qed.

Lemma buffered_renders_not_negative_witness :
  valueToFixed (Str "-3") defaultOptions = "-3.00"
  /\ startsWith "-" (valueWithGasBufferToFixed (Str "-3") defaultOptions)
     = false
  /\ startsWith "-" (valueWithGasBufferToString (Str "-3") defaultOptions)
     = false.
Proof.
  split; [reflexivity | split].
  - apply (proj1 (buffered_renders_not_negative (Str "-3") defaultOptions
                    eq_refl)).
  - apply (proj2 (buffered_renders_not_negative (Str "-3") defaultOptions
                    eq_refl)).
    reflexivity.
Defined.

(** *** The exact-precision branch *)






(** *** The rounding mode *)

(** The mode [ROUND_UP] cannot be selected: it is the number 0, which
    the [||] default skips, so asking for it renders as the default mode
    [ROUND_DOWN] does, in all four renderings. *)
Lemma round_up_renders_as_round_down (value : RawValue) (options : Options) :
  roundingMode' (withRoundingMode options (Some ROUND_UP)) = ROUND_DOWN
  /\ valueToFixed value (withRoundingMode options (Some ROUND_UP))
     = valueToFixed value (withRoundingMode options (Some ROUND_DOWN))
  /\ valueToString value (withRoundingMode options (Some ROUND_UP))
     = valueToString value (withRoundingMode options (Some ROUND_DOWN))
  /\ valueWithGasBufferToFixed value (withRoundingMode options (Some ROUND_UP))
     = valueWithGasBufferToFixed value
         (withRoundingMode options (Some ROUND_DOWN))
  /\ valueWithGasBufferToString value (withRoundingMode options (Some ROUND_UP))
     = valueWithGasBufferToString value
         (withRoundingMode options (Some ROUND_DOWN)).
Proof. repeat split. Qed.

(** *** Un-abbreviation *)

Lemma lastChar_snoc (s : string) (u : ascii) :
  lastChar (s ++ String u "") = Some u.
Proof. now rewrite lastChar_append by discriminate. Qed.

Lemma dropLast_cons (x : ascii) (r : string) :
  r <> "" -> dropLast (String x r) = String x (dropLast r).
Proof. destruct r; [contradiction | reflexivity]. Qed.

Lemma dropLast_snoc (s : string) (u : ascii) :
  dropLast (s ++ String u "") = s.
Proof.
  induction s as [|x s IH]; [reflexivity|].
  change (String x s ++ String u "") with (String x (s ++ String u "")).
  rewrite dropLast_cons by (apply append_nonempty; discriminate).
  now rewrite IH.
Qed.

Lemma unit_not_comma (u : ascii) (m : N) :
  units u = Some m -> Ascii.eqb u "," = false.
Proof.
  destruct (Ascii.eqb_spec u ",") as [-> | _]; [discriminate | reflexivity].
Qed.

(** X8. A text that ends in [K], [M], [B] or [T] un-abbreviates to the
    number written before the letter, commas ignored, multiplied by the
    unit; the empty text and a text ending in anything else give
    undefined. *)
Theorem unAbbreviate_suffix (s : string) (u : ascii) :
  (forall m, units u = Some m ->
     unAbbreviateNumber (s ++ String u "")
     = Some (multipliedBy (ofString (removeChar "," s)) (ofN m)))
  /\ (units u = None -> unAbbreviateNumber (s ++ String u "") = None)
  /\ unAbbreviateNumber "" = None.
Proof.
  split; [| split; [|reflexivity]].
  - intros m Hu. unfold unAbbreviateNumber.
    rewrite lastChar_snoc, Hu, removeChar_append. simpl removeChar at 2.
    rewrite (unit_not_comma u m Hu), dropLast_snoc. reflexivity.
  - intros Hu. unfold unAbbreviateNumber. now rewrite lastChar_snoc, Hu.
Qed.

Lemma unAbbreviate_suffix_witness :
  unAbbreviateNumber ("12,345.5" ++ "B")
  = Some (multipliedBy (ofString "12345.5") (ofN (10 ^ 9)))
  /\ unAbbreviateNumber ("12.5" ++ "k") = None.
Proof.
  split.
  - apply (proj1 (unAbbreviate_suffix "12,345.5" "B")). reflexivity.
  - apply (proj1 (proj2 (unAbbreviate_suffix "12.5" "k"))). reflexivity.
Defined.

(** *** Reading a rendered number back *)

Lemma digitsValue_append (s t : string) : forall a,
  digitsValue a (s ++ t) = digitsValue (digitsValue a s) t.
Proof. induction s as [|x s IH]; intros a; simpl; [reflexivity | apply IH]. Qed.

Lemma digitsValue_digitsFixed (k : nat) : forall a r,
  digitsValue a (digitsFixed k r)
  = (a * 10 ^ N.of_nat k + r mod 10 ^ N.of_nat k)%N.
Proof.
  induction k as [|k IH]; intros a r.
  - simpl. rewrite N.mod_1_r. lia.
  - change (digitsFixed (S k) r)
      with (digitsFixed k (r / 10) ++ String (digitChar (r mod 10)) "").
    rewrite digitsValue_append, IH. cbn [digitsValue].
    rewrite digitValue_digitChar by (apply N.mod_lt; discriminate).
    rewrite Nat2N.inj_succ, N.pow_succ_r'.
    rewrite (N.Div0.mod_mul_r r 10 (10 ^ N.of_nat k)). ring.
Qed.

Lemma spanDigits_all (s : string) :
  allDigits s = true -> spanDigits s = (s, "").
Proof.
  induction s as [|x s IH]; [reflexivity|]. simpl.
  intros H. apply andb_prop in H. destruct H as [Hx Hs].
  now rewrite Hx, IH.
Qed.

Lemma spanDigits_point (s t : string) :
  allDigits s = true -> spanDigits (s ++ String "." t) = (s, String "." t).
Proof.
  induction s as [|x s IH]; [reflexivity|]. simpl.
  intros H. apply andb_prop in H. destruct H as [Hx Hs].
  now rewrite Hx, IH.
Qed.

Lemma digit_differs (ch x : ascii) :
  isDigit ch = true -> isDigit x = false -> Ascii.eqb ch x = false.
Proof.
  intros Hc Hx. destruct (Ascii.eqb_spec ch x) as [-> | _];
    [congruence | reflexivity].
Qed.

(** The sign split of the constructor, on a text that does not begin with
    a minus sign. *)
Lemma no_sign_split (ch : ascii) (s : string) :
  isDigit ch = true ->
  match String ch s with
  | String "-" r => (true, r)
  | _ => (false, String ch s)
  end = (false, String ch s).
Proof.
  destruct ch as [[] [] [] [] [] [] [] []]; intros H;
    first [reflexivity | discriminate H].
Qed.

(** Digits, then optionally a point and digits, read as the decimal they
    write. *)
Lemma ofString_unsigned (ip rest : string) (hasPoint : bool) (fp : string) :
  allDigits ip = true -> ip <> "" -> allDigits fp = true ->
  rest = (if hasPoint then String "." fp else "") ->
  (hasPoint = false -> fp = "") ->
  ofString (ip ++ rest)
  = Finite false (digitsValue 0 (ip ++ fp)) (0 - Z.of_nat (String.length fp)).
Proof.
  intros Hip Hne Hfp -> Hnp.
  destruct ip as [|ch ip']; [contradiction|].
  pose proof Hip as Hd. simpl in Hd. apply andb_prop in Hd.
  destruct Hd as [Hch _].
  unfold ofString.
  change ((String ch ip' ++ (if hasPoint then String "." fp else ""))%string)
    with (String ch (ip' ++ (if hasPoint then String "." fp else ""))).
  assert (K : forall x k, isDigit x = false ->
              (String ch (ip' ++ (if hasPoint then String "." fp else ""))
               =? String x k)%string = false).
  { intros x k Hx. simpl. now rewrite (digit_differs ch x Hch Hx). }
  rewrite !K by reflexivity. simpl orb. cbv iota.
  rewrite (no_sign_split ch _ Hch).
  change (String ch (ip' ++ (if hasPoint then String "." fp else "")))
    with ((String ch ip' ++ (if hasPoint then String "." fp else ""))%string).
  destruct hasPoint.
  - rewrite (spanDigits_point _ fp Hip), (spanDigits_all fp Hfp).
    reflexivity.
  - rewrite (Hnp eq_refl), append_empty, (spanDigits_all _ Hip).
    cbv iota beta. rewrite append_empty. reflexivity.
Qed.

Lemma ofString_signed (ip rest : string) (hasPoint : bool) (fp : string) :
  allDigits ip = true -> ip <> "" -> allDigits fp = true ->
  rest = (if hasPoint then String "." fp else "") ->
  (hasPoint = false -> fp = "") ->
  ofString (String "-" (ip ++ rest))
  = Finite true (digitsValue 0 (ip ++ fp)) (0 - Z.of_nat (String.length fp)).
Proof.
  intros Hip Hne Hfp -> Hnp.
  destruct ip as [|ch ip']; [contradiction|].
  pose proof Hip as Hd. simpl in Hd. apply andb_prop in Hd.
  destruct Hd as [Hch _].
  unfold ofString.
  change ((String ch ip' ++ (if hasPoint then String "." fp else ""))%string)
    with (String ch (ip' ++ (if hasPoint then String "." fp else ""))).
  assert (K : forall x k, isDigit x = false ->
              (String "-"
                 (String ch (ip' ++ (if hasPoint then String "." fp else "")))
               =? String "-" (String x k))%string = false).
  { intros x k Hx. simpl. now rewrite (digit_differs ch x Hch Hx). }
  rewrite !K by reflexivity.
  change ((String "-" _ =? "NaN")%string) with false.
  change ((String "-" _ =? "Infinity")%string) with false.
  simpl orb. cbv iota.
  change (String ch (ip' ++ (if hasPoint then String "." fp else "")))
    with ((String ch ip' ++ (if hasPoint then String "." fp else ""))%string).
  destruct hasPoint.
  - rewrite (spanDigits_point _ fp Hip), (spanDigits_all fp Hfp).
    reflexivity.
  - rewrite (Hnp eq_refl), append_empty, (spanDigits_all _ Hip).
    cbv iota beta. rewrite append_empty. reflexivity.
Qed.

Lemma fracPart_shape (n : N) (dp : nat) :
  fracPart n dp
  = (if (0 <? dp)%nat
     then String "." (digitsFixed dp (n mod 10 ^ N.of_nat dp))
     else "").
Proof. destruct dp; reflexivity. Qed.

Lemma digitsValue_rendered (n : N) (dp : nat) :
  digitsValue 0
    (intDigits n dp
     ++ (if (0 <? dp)%nat then digitsFixed dp (n mod 10 ^ N.of_nat dp)
         else ""))
  = n.
Proof.
  unfold intDigits. rewrite digitsValue_append, digitsValue_digitsN.
  destruct dp as [|k].
  - simpl. now rewrite N.div_1_r.
  - change (0 <? S k)%nat with true. cbv iota.
    rewrite digitsValue_digitsFixed, N.Div0.mod_mod.
    pose proof (N.div_mod n (10 ^ N.of_nat (S k))) as E.
    rewrite E at 3 by (apply N.pow_nonzero; discriminate). ring.
Qed.

Lemma length_rendered_fraction (n : N) (dp : nat) :
  String.length
    (if (0 <? dp)%nat then digitsFixed dp (n mod 10 ^ N.of_nat dp) else "")
  = dp.
Proof. destruct dp; [reflexivity | apply length_digitsFixed]. Qed.

(** The fixed rendering of a finite value reads back as the value
    rounded to [dp] decimals. *)
Lemma ofString_toFixed (neg : bool) (c : N) (e : Z) (dp : nat)
    (rm : RoundingMode) :
  ofString (toFixed (Finite neg c e) dp rm)
  = Finite (neg && negb (c =? 0)%N) (roundTo rm neg c e dp)
           (- Z.of_nat dp).
Proof.
  unfold toFixed, signText. set (n := roundTo rm neg c e dp).
  set (fp := if (0 <? dp)%nat
             then digitsFixed dp (n mod 10 ^ N.of_nat dp) else "").
  assert (Hfp : allDigits fp = true)
    by (subst fp; destruct (0 <? dp)%nat;
        [apply allDigits_digitsFixed | reflexivity]).
  assert (Hrest : fracPart n dp
                  = (if (0 <? dp)%nat then String "." fp else ""))
    by (rewrite fracPart_shape; subst fp; now destruct (0 <? dp)%nat).
  assert (Hnp : (0 <? dp)%nat = false -> fp = "")
    by (subst fp; now intros ->).
  destruct (neg && negb (c =? 0)%N).
  - change (("-" ++ intDigits n dp ++ fracPart n dp)%string)
      with (String "-" (intDigits n dp ++ fracPart n dp)).
    rewrite (ofString_signed (intDigits n dp) _ (0 <? dp)%nat fp
               (allDigits_digitsN _) (digitsN_nonempty _) Hfp Hrest Hnp).
    subst fp. rewrite digitsValue_rendered, length_rendered_fraction.
    reflexivity.
  - change (("" ++ intDigits n dp ++ fracPart n dp)%string)
      with ((intDigits n dp ++ fracPart n dp)%string).
    rewrite (ofString_unsigned (intDigits n dp) _ (0 <? dp)%nat fp
               (allDigits_digitsN _) (digitsN_nonempty _) Hfp Hrest Hnp).
    subst fp. rewrite digitsValue_rendered, length_rendered_fraction.
    reflexivity.
Qed.

Lemma digitsValue_zeros (k : nat) : digitsValue 0 (repeatChar "0" k) = 0%N.
Proof. induction k as [|k IH]; [reflexivity | exact IH]. Qed.

(** The zero text reads back as zero. *)
Lemma ofString_zero_text (d : nat) :
  ofString (getFormattedZeroValue d)
  = Finite false 0 (- Z.of_nat (Nat.max 1 d)).
Proof.
  assert (E : getFormattedZeroValue d
              = ("0" ++ String "." (repeatChar "0" (Nat.max 1 d)))%string)
    by (destruct d; reflexivity).
  rewrite E.
  rewrite (ofString_unsigned "0" _ true (repeatChar "0" (Nat.max 1 d)));
    try reflexivity; try discriminate; try apply allDigits_repeat0.
  rewrite length_repeatChar.
  change (digitsValue 0 ("0" ++ repeatChar "0" (Nat.max 1 d)))
    with (digitsValue 0 (repeatChar "0" (Nat.max 1 d))).
  now rewrite digitsValue_zeros.
Qed.

Lemma append_nonempty_l (s t : string) : s <> "" -> s ++ t <> "".
Proof. destruct s; [contradiction | discriminate]. Qed.

Lemma toFixed_nonempty (x : BigNumber) (dp : nat) (rm : RoundingMode) :
  toFixed x dp rm <> "".
Proof.
  destruct x as [| [] | neg c e]; try discriminate.
  unfold toFixed. apply append_nonempty, append_nonempty_l, digitsN_nonempty.
Qed.

Lemma zero_text_nonempty (d : nat) : getFormattedZeroValue d <> "".
Proof. destruct d; discriminate. Qed.

(** [valueToFixed] of a text, where no abbreviation floor is set. *)
Lemma valueToFixed_text (t : string) (options : Options) :
  t <> "" ->
  abbreviationFloor options = None ->
  valueToFixed (Str t) options
  = if isNaN (ofString t) || isZero (ofString t)
    then getFormattedZeroValue (decimalPlaces' options)
    else toFixed (ofString t) (decimalPlaces' options) (roundingMode' options).
Proof.
  intros Ht Hf. unfold valueToFixed, aboveAbbreviationFloor, valueToBigNumber.
  rewrite Hf. simpl truthy.
  destruct (String.eqb_spec t "") as [E | _]; [contradiction|]. reflexivity.
Qed.

Lemma roundTo_exact (rm : RoundingMode) (neg : bool) (n : N) (dp : nat) :
  roundTo rm neg n (- Z.of_nat dp) dp = n.
Proof.
  unfold roundTo. replace (- Z.of_nat dp + Z.of_nat dp) with 0 by lia.
  simpl. apply N.mul_1_r.
Qed.

(** X9. Where no abbreviation floor is set, feeding the text of
    [valueToFixed] back as the value reproduces the text, unless the text
    denotes zero, in which case the zero text is produced (so ["-0.00"]
    becomes ["0.00"]). *)
Theorem fixed_render_idempotent (value : RawValue) (options : Options) :
  abbreviationFloor options = None ->
  valueToFixed (Str (valueToFixed value options)) options
  = if isZero (ofString (valueToFixed value options))
    then getFormattedZeroValue (decimalPlaces' options)
    else valueToFixed value options.
Proof.
  intros Hf.
  assert (Ha : aboveAbbreviationFloor value options = false)
    by (unfold aboveAbbreviationFloor; now rewrite Hf).
  unfold valueToFixed at 2 3 4. rewrite Ha.
  destruct (isNaN _ || isZero _) eqn:G.
  - rewrite valueToFixed_text by (apply zero_text_nonempty || exact Hf).
    rewrite ofString_zero_text. reflexivity.
  - rewrite valueToFixed_text by (apply toFixed_nonempty || exact Hf).
    destruct (valueToBigNumber value) as [| [] | neg c e];
      try discriminate G; try reflexivity.
    simpl in G. destruct (N.eqb_spec c 0) as [E | E]; [discriminate G|].
    rewrite ofString_toFixed.
    replace (c =? 0)%N with false by (symmetry; now apply N.eqb_neq).
    rewrite andb_true_r. simpl isNaN. simpl isZero. simpl orb.
    set (n := roundTo (roundingMode' options) neg c e (decimalPlaces' options)).
    destruct (N.eqb_spec n 0) as [Z0 | NZ]; [reflexivity|].
    unfold toFixed. rewrite roundTo_exact. fold n.
    unfold signText.
    replace (c =? 0)%N with false by (symmetry; now apply N.eqb_neq).
    replace (n =? 0)%N with false by (symmetry; now apply N.eqb_neq).
    reflexivity.
Qed.

Lemma fixed_render_idempotent_witness :
  valueToFixed (Str (valueToFixed (Str "-1234.5678") defaultOptions))
    defaultOptions = "-1234.56"
  /\ valueToFixed (Str "-0.001") defaultOptions = "-0.00"
  /\ valueToFixed (Str (valueToFixed (Str "-0.001") defaultOptions))
       defaultOptions = "0.00".
Proof.
  split; [| split; [reflexivity|]].
  - rewrite (fixed_render_idempotent (Str "-1234.5678") defaultOptions eq_refl).
    reflexivity.
  - rewrite (fixed_render_idempotent (Str "-0.001") defaultOptions eq_refl).
    reflexivity.
Defined.

(** *** Accuracy of the fixed rendering *)

Lemma roundDiv_close (rm : RoundingMode) (neg : bool) (c p : N) :
  (0 < p)%N ->
  (roundDiv rm neg c p * p < c + p /\ c < roundDiv rm neg c p * p + p)%N.
Proof.
  intros Hp. unfold roundDiv.
  pose proof (N.div_mod c p ltac:(lia)) as E.
  pose proof (N.mod_lt c p ltac:(lia)) as Hr.
  set (q := (c / p)%N) in *. set (r := (c mod p)%N) in *.
  clearbody q r.
  assert (Q1 : ((q + 1) * p = p * q + p)%N) by ring.
  assert (Q0 : (q * p = p * q)%N) by ring.
  destruct (N.eqb_spec r 0) as [R0 | R0]; [rewrite Q0; lia|].
  match goal with |- context [if ?b then _ else _] => destruct b end.
  - rewrite Q1. lia.
  - rewrite Q0. lia.
Qed.

Lemma lt_zero_threshold (neg : bool) (m t : Z) :
  lt (abs (Finite neg 0 m)) (Finite false 1 t) = true.
Proof.
  unfold lt, abs, compare, scaled, signed.
  change (Z.of_N 0) with 0. rewrite Z.mul_0_l.
  pose proof (pow10_pos (t - Z.min m t) ltac:(lia)) as P.
  destruct (Z.compare_spec 0 (Z.of_N 1 * 10 ^ (t - Z.min m t)));
    [lia | reflexivity | lia].
Qed.

(** The value rounded to [dp] decimals is within [10^-dp] of the
    value. *)
Lemma rounded_close (rm : RoundingMode) (neg : bool) (c : N) (e : Z)
    (dp : nat) :
  lt (abs (minus (Finite neg (roundTo rm neg c e dp) (- Z.of_nat dp))
                 (Finite neg c e)))
     (Finite false 1 (- Z.of_nat dp)) = true.
Proof.
  unfold roundTo.
  destruct (Z.leb_spec 0 (e + Z.of_nat dp)) as [Hs | Hs].
  - (* no digit is dropped *)
    unfold minus, scaled. rewrite Z.min_l by lia.
    replace (- Z.of_nat dp - - Z.of_nat dp) with 0 by lia.
    replace (e - - Z.of_nat dp) with (e + Z.of_nat dp) by lia.
    assert (E : signed neg (c * 10 ^ Z.to_N (e + Z.of_nat dp)) * 10 ^ 0
                - signed neg c * 10 ^ (e + Z.of_nat dp) = 0).
    { unfold signed. rewrite N2Z.inj_mul, N2Z.inj_pow, Z2N.id by lia.
      change (Z.of_N 10) with 10. destruct neg; ring. }
    rewrite E. simpl Z.eqb. cbv iota. apply lt_zero_threshold.
  - set (p := (10 ^ Z.to_N (- (e + Z.of_nat dp)))%N).
    assert (Hp : (0 < p)%N)
      by (subst p; apply N.neq_0_lt_0, N.pow_nonzero; discriminate).
    pose proof (roundDiv_close rm neg c p Hp) as [B1 B2].
    set (n := roundDiv rm neg c p) in *.
    assert (Pz : Z.of_N p = 10 ^ (- Z.of_nat dp - e)).
    { subst p. rewrite N2Z.inj_pow, Z2N.id by lia.
      change (Z.of_N 10) with 10. f_equal. lia. }
    unfold minus, scaled. rewrite Z.min_r by lia.
    replace (e - e) with 0 by lia. rewrite <- Pz.
    change (10 ^ 0) with 1. rewrite Z.mul_1_r.
    set (D := signed neg n * Z.of_N p - signed neg c).
    assert (HD : Z.abs D < Z.of_N p).
    { subst D. unfold signed.
      assert (Z.of_N n * Z.of_N p < Z.of_N c + Z.of_N p) by
        (rewrite <- N2Z.inj_mul, <- N2Z.inj_add; now apply N2Z.inj_lt).
      assert (Z.of_N c < Z.of_N n * Z.of_N p + Z.of_N p) by
        (rewrite <- N2Z.inj_mul, <- N2Z.inj_add; now apply N2Z.inj_lt).
      destruct neg; lia. }
    destruct (Z.eqb_spec D 0) as [D0 | D0]; [apply lt_zero_threshold|].
    unfold lt, abs, compare, scaled, signed.
    rewrite Z.min_l by lia. replace (e - e) with 0 by lia.
    change (10 ^ 0) with 1. rewrite Z.mul_1_r, <- Pz.
    rewrite N2Z.inj_abs_N. change (Z.of_N 1) with 1. rewrite Z.mul_1_l.
    destruct (Z.compare_spec (Z.abs D) (Z.of_N p)); [lia | reflexivity | lia].
Qed.

Lemma valueToBigNumber_text (t : string) :
  t <> "" -> valueToBigNumber (Str t) = ofString t.
Proof.
  intros Ht. unfold valueToBigNumber. simpl truthy.
  destruct (String.eqb_spec t "") as [E | _]; [contradiction | reflexivity].
Qed.

(** X10. Where no abbreviation floor is set and the canonical value is
    finite, the text of [valueToFixed], read back as a value, differs from
    the canonical value by less than [10^-decimalPlaces], in every
    rounding mode. *)
Theorem fixed_render_accuracy (value : RawValue) (options : Options) :
  abbreviationFloor options = None ->
  isFinite (valueToBigNumber value) = true ->
  lt (abs (minus (valueToBigNumber (Str (valueToFixed value options)))
                 (valueToBigNumber value)))
     (shiftedBy (ofN 1) (- Z.of_nat (decimalPlaces' options))) = true.
Proof.
  intros Hf Hfin.
  assert (Ha : aboveAbbreviationFloor value options = false)
    by (unfold aboveAbbreviationFloor; now rewrite Hf).
  unfold valueToFixed. rewrite Ha.
  destruct (valueToBigNumber value) as [| s | neg c e];
    try discriminate Hfin.
  simpl isNaN. simpl isZero. simpl orb.
  destruct (N.eqb_spec c 0) as [E | E].
  - subst c. rewrite valueToBigNumber_text by apply zero_text_nonempty.
    rewrite ofString_zero_text. unfold minus, scaled, signed.
    change (Z.of_N 0) with 0. change (- 0) with 0.
    replace (if neg then 0 else 0) with 0 by now destruct neg.
    rewrite !Z.mul_0_l. simpl Z.eqb. cbv iota.
    apply lt_zero_threshold.
  - rewrite valueToBigNumber_text by apply toFixed_nonempty.
    rewrite ofString_toFixed.
    replace (c =? 0)%N with false by (symmetry; now apply N.eqb_neq).
    rewrite andb_true_r. apply rounded_close.
Qed.

Lemma fixed_render_accuracy_witness :
  valueToFixed (Str "2.71828") defaultOptions = "2.71"
  /\ lt (abs (minus (valueToBigNumber (Str "2.71")) (ofString "2.71828")))
        (ofString "0.01") = true.
Proof.
  split; [reflexivity|].
  apply (fixed_render_accuracy (Str "2.71828") defaultOptions);
    reflexivity.
Defined.

(** *** The default rounding mode *)

Lemma roundDiv_down (neg : bool) (c p : N) :
  (0 < p)%N -> (roundDiv ROUND_DOWN neg c p * p <= c)%N.
Proof.
  intros Hp. unfold roundDiv.
  pose proof (N.div_mod c p ltac:(lia)) as E.
  set (q := (c / p)%N) in *. set (r := (c mod p)%N) in *. clearbody q r.
  assert (Q0 : (q * p = p * q)%N) by ring.
  destruct (r =? 0)%N; rewrite Q0; lia.
Qed.

Lemma truncated_not_above (neg : bool) (c : N) (e : Z) (dp : nat) :
  lte (abs (Finite neg (roundTo ROUND_DOWN neg c e dp) (- Z.of_nat dp)))
      (abs (Finite neg c e)) = true.
Proof.
  unfold roundTo, abs, lte, compare, scaled, signed.
  destruct (Z.leb_spec 0 (e + Z.of_nat dp)) as [Hs | Hs].
  - rewrite Z.min_l by lia.
    replace (- Z.of_nat dp - - Z.of_nat dp) with 0 by lia.
    replace (e - - Z.of_nat dp) with (e + Z.of_nat dp) by lia.
    rewrite N2Z.inj_mul, N2Z.inj_pow, Z2N.id by lia.
    change (Z.of_N 10) with 10. change (10 ^ 0) with 1.
    rewrite Z.mul_1_r, Z.compare_refl. reflexivity.
  - set (p := (10 ^ Z.to_N (- (e + Z.of_nat dp)))%N).
    assert (Hp : (0 < p)%N)
      by (subst p; apply N.neq_0_lt_0, N.pow_nonzero; discriminate).
    pose proof (roundDiv_down neg c p Hp) as B.
    set (n := roundDiv ROUND_DOWN neg c p) in *.
    assert (Pz : Z.of_N p = 10 ^ (- Z.of_nat dp - e)).
    { subst p. rewrite N2Z.inj_pow, Z2N.id by lia.
      change (Z.of_N 10) with 10. f_equal. lia. }
    rewrite Z.min_r by lia. replace (e - e) with 0 by lia.
    rewrite <- Pz. change (10 ^ 0) with 1. rewrite Z.mul_1_r.
    assert (Z.of_N n * Z.of_N p <= Z.of_N c)
      by (rewrite <- N2Z.inj_mul; now apply N2Z.inj_le).
    destruct (Z.compare_spec (Z.of_N n * Z.of_N p) (Z.of_N c));
      [reflexivity | reflexivity | lia].
Qed.

(** X7. In the default rounding mode the fixed rendering never overstates
    the value: where no abbreviation floor is set and the canonical value
    is finite, the text of [valueToFixed] read back as a value is at most
    the canonical value in magnitude.  The default mode is also what a
    request for [ROUND_UP] gets, that mode being the number 0, which the
    [||] default skips. *)
Theorem fixed_render_truncates (value : RawValue) (options : Options) :
  roundingMode options = None \/ roundingMode options = Some ROUND_UP
  \/ roundingMode options = Some ROUND_DOWN ->
  abbreviationFloor options = None ->
  isFinite (valueToBigNumber value) = true ->
  lte (abs (valueToBigNumber (Str (valueToFixed value options))))
      (abs (valueToBigNumber value)) = true.
Proof.
  intros Hrm Hf Hfin.
  assert (R : roundingMode' options = ROUND_DOWN)
    by (unfold roundingMode'; destruct Hrm as [-> | [-> | ->]]; reflexivity).
  assert (Ha : aboveAbbreviationFloor value options = false)
    by (unfold aboveAbbreviationFloor; now rewrite Hf).
  unfold valueToFixed. rewrite Ha, R.
  destruct (valueToBigNumber value) as [| s | neg c e];
    try discriminate Hfin.
  simpl isNaN. simpl isZero. simpl orb.
  destruct (N.eqb_spec c 0) as [E | E].
  - subst c. rewrite valueToBigNumber_text by apply zero_text_nonempty.
    rewrite ofString_zero_text. unfold abs, lte, compare, scaled, signed.
    change (Z.of_N 0) with 0. now rewrite !Z.mul_0_l.
  - rewrite valueToBigNumber_text by apply toFixed_nonempty.
    rewrite ofString_toFixed.
    replace (c =? 0)%N with false by (symmetry; now apply N.eqb_neq).
    rewrite andb_true_r. apply truncated_not_above.
Qed.

Lemma fixed_render_truncates_witness :
  valueToFixed (Str "1.239")
    (withRoundingMode defaultOptions (Some ROUND_UP)) = "1.23"
  /\ lte (abs (valueToBigNumber
                (Str (valueToFixed (Str "1.239")
                        (withRoundingMode defaultOptions (Some ROUND_UP))))))
         (abs (valueToBigNumber (Str "1.239"))) = true.
Proof.
  split; [reflexivity|].
  apply (fixed_render_truncates (Str "1.239")
           (withRoundingMode defaultOptions (Some ROUND_UP)));
    [right; left; reflexivity | reflexivity | reflexivity].
Defined.

(** *** Exact abbreviations *)

Lemma abbreviate_exact_table :
  forallb
    (fun u : ascii * N =>
       forallb
         (fun n : N =>
            (abbreviateNumber (ofN (n * snd u))
             =? digitsN n ++ String (fst u) "")%string
            && match unAbbreviateNumber (abbreviateNumber (ofN (n * snd u))) with
               | Some w => eq (ofN (n * snd u)) w
               | None => false
               end)
         (map N.of_nat (seq 1 999)))
    [("K"%char, 10 ^ 3); ("M"%char, 10 ^ 6); ("B"%char, 10 ^ 9);
     ("T"%char, 10 ^ 12)]%N
  = true.
Proof. vm_compute. reflexivity. Qed.

Lemma units_listed (u : ascii) (m : N) :
  units u = Some m ->
  In (u, m) [("K"%char, 10 ^ 3); ("M"%char, 10 ^ 6); ("B"%char, 10 ^ 9);
             ("T"%char, 10 ^ 12)]%N.
Proof.
  destruct u as [[] [] [] [] [] [] [] []]; simpl; intros H;
    try discriminate H; injection H as <-; tauto.
Qed.

(** X11. Every whole number of thousands, millions, billions or trillions
    from 1 to 999 is abbreviated exactly: the digits and the unit letter,
    without the approximation marker, and un-abbreviating the text gives
    a number equal to the input. *)
Theorem abbreviate_exact_multiples (n : N) (u : ascii) (m : N) :
  units u = Some m ->
  (1 <= n <= 999)%N ->
  abbreviateNumber (ofN (n * m)) = digitsN n ++ String u ""
  /\ exists w,
       unAbbreviateNumber (abbreviateNumber (ofN (n * m))) = Some w
       /\ eq (ofN (n * m)) w = true.
Proof.
  intros Hu Hn.
  pose proof abbreviate_exact_table as T.
  rewrite forallb_forall in T. specialize (T (u, m) (units_listed u m Hu)).
  rewrite forallb_forall in T.
  assert (I : In n (map N.of_nat (seq 1 999))).
  { apply in_map_iff. exists (N.to_nat n). split; [lia|].
    apply in_seq. lia. }
  specialize (T n I). cbn [fst snd] in T.
  apply andb_prop in T. destruct T as [T1 T2].
  apply String.eqb_eq in T1. split; [exact T1|].
  destruct (unAbbreviateNumber (abbreviateNumber (ofN (n * m)))) as [w|];
    [|discriminate T2].
  exists w. split; [reflexivity | exact T2].
Qed.

Lemma abbreviate_exact_multiples_witness :
  abbreviateNumber (ofN 12000000) = "12M".
Proof.
  apply (proj1 (abbreviate_exact_multiples 12 "M" (10 ^ 6) eq_refl
                  ltac:(lia))).
Defined.

End RenderingFacts.

(* ------------------------------------------------------------------ *)
(** ** Properties of the wallet validation *)

Module MetamaskFacts.
Import Text BN Observe TextFacts BNFacts Metamask.

(** *** Lower case *)

Lemma lowerChar_idempotent (ch : ascii) : lowerChar (lowerChar ch) = lowerChar ch.
Proof. destruct ch as [[] [] [] [] [] [] [] []]; reflexivity. Qed.

Lemma toLowerCase_idempotent (s : string) :
  toLowerCase (toLowerCase s) = toLowerCase s.
Proof.
  induction s as [|ch s IH]; simpl; [reflexivity|].
  now rewrite lowerChar_idempotent, IH.
Qed.

Lemma toLowerCase_empty (s : string) :
  (toLowerCase s =? "")%string = (s =? "")%string.
Proof. destruct s; reflexivity. Qed.

Lemma same_lower_same_emptiness (s t : string) :
  toLowerCase s = toLowerCase t -> (s =? "")%string = (t =? "")%string.
Proof.
  intros H. rewrite <- (toLowerCase_empty s), <- (toLowerCase_empty t).
  now rewrite H.
Qed.

(** *** Hexadecimal digits *)







(** *** The checks of [validateMetamask] *)

Lemma address_check (address active : string) :
  negb (address =? "")%string
  && negb (toLowerCase active =? toLowerCase address)%string = false
  <-> addressAccepted address active.
Proof.
  unfold addressAccepted.
  destruct (String.eqb_spec address "") as [E | E];
    destruct (String.eqb_spec (toLowerCase active) (toLowerCase address))
      as [L | L]; simpl; split; intros H; try tauto; try discriminate.
Qed.

(** The lists of calls the function can make. *)
Lemma calls_made (chainId : JSNumber) (wallet : WalletStrategy)
    (address : string) :
  fst (validateMetamask chainId wallet address) = [GetAddresses]
  \/ fst (validateMetamask chainId wallet address)
     = [GetAddresses; GetEthereumChainId].
Proof.
  unfold validateMetamask.
  destruct (getAddresses wallet) as [addresses | r]; [|now left].
  destruct (List.length addresses =? 0)%nat; [now left|]. cbv zeta.
  destruct (negb _ && negb _); [now left|].
  destruct (getEthereumChainId wallet); now right.
Qed.

(** What happens once the wallet is unlocked and the address accepted. *)
Lemma validate_unlocked (chainId : JSNumber) (wallet : WalletStrategy)
    (address active : string) (rest : list string) :
  getAddresses wallet = Resolved (active :: rest) ->
  addressAccepted address active ->
  validateMetamask chainId wallet address
  = match getEthereumChainId wallet with
    | Rejected reason => ([GetAddresses; GetEthereumChainId], Failed reason)
    | Resolved hex =>
        ([GetAddresses; GetEthereumChainId],
         if negb (strictEq chainId (parseInt16 hex)) then
           if strictEq chainId Kovan then Thrown (walletException kovanMessage)
           else if strictEq chainId Goerli
                then Thrown (walletException goerliMessage)
                else Thrown (walletException mainnetMessage)
         else Passed)
    end.
Proof.
  intros Ha Hacc. unfold validateMetamask. rewrite Ha.
  cbn [List.length Nat.eqb List.hd]. cbv iota zeta.
  now rewrite (proj2 (address_check address active) Hacc).
Qed.

(** X12. The wallet is asked for its chain exactly when it is unlocked
    (it lists an address) and the given address is empty or equals the
    first listed one up to letter case; a locked wallet is reported after
    the single call for the addresses, whatever the address and the
    chain. *)
Theorem chain_requested_iff (chainId : JSNumber) (wallet : WalletStrategy)
    (address : string) :
  (In GetEthereumChainId (fst (validateMetamask chainId wallet address))
   <-> exists active rest,
         getAddresses wallet = Resolved (active :: rest)
         /\ addressAccepted address active)
  /\ (getAddresses wallet = Resolved [] ->
      validateMetamask chainId wallet address
      = ([GetAddresses], Thrown (walletException lockedMessage))).
Proof.
  split.
  - split.
    + unfold validateMetamask.
      destruct (getAddresses wallet) as [[|active rest] | r];
        try (simpl; intros [H | []]; discriminate H).
      cbn [List.length Nat.eqb List.hd]. cbv iota zeta.
      destruct (negb _ && negb _) eqn:C;
        [simpl; intros [H | []]; discriminate H|].
      intros _. exists active, rest. split; [reflexivity|].
      now apply address_check.
    + intros (active & rest & Ha & Hacc).
      rewrite (validate_unlocked chainId wallet address active rest Ha Hacc).
      destruct (getEthereumChainId wallet); simpl; tauto.
  - intros Ha. unfold validateMetamask. now rewrite Ha.
Qed.

Lemma chain_requested_iff_witness :
  In GetEthereumChainId
     (fst (validateMetamask Goerli (unlockedOn "0xABCDEF" "0x5") "0xabcdef"))
  /\ validateMetamask Goerli
       {| getAddresses := Resolved []; getEthereumChainId := Resolved "0x5" |}
       "0xabcdef"
     = ([GetAddresses], Thrown (walletException lockedMessage)).
Proof.
  split.
  - apply (proj1 (chain_requested_iff Goerli (unlockedOn "0xABCDEF" "0x5")
                    "0xabcdef")).
    exists "0xABCDEF"%string, ["0x0000000000000000000000000000000000000001"%string].
    split; [reflexivity | right; reflexivity].
  - apply (proj2 (chain_requested_iff Goerli _ "0xabcdef")). reflexivity.
Defined.

(** X13. [validateMetamask] passes exactly when the wallet lists an
    address, the given address is empty or equals the first listed one
    up to letter case, and the chain the wallet reports, read as a
    hexadecimal number, is strictly equal to the configured chain. *)
Theorem validate_passes_iff (chainId : JSNumber) (wallet : WalletStrategy)
    (address : string) :
  snd (validateMetamask chainId wallet address) = Passed
  <-> exists active rest hex,
        getAddresses wallet = Resolved (active :: rest)
        /\ addressAccepted address active
        /\ getEthereumChainId wallet = Resolved hex
        /\ strictEq chainId (parseInt16 hex) = true.
Proof.
  split.
  - unfold validateMetamask.
    destruct (getAddresses wallet) as [[|active rest] | r];
      try (simpl; discriminate).
    cbn [List.length Nat.eqb List.hd]. cbv iota zeta.
    destruct (negb _ && negb _) eqn:C; [simpl; discriminate|].
    destruct (getEthereumChainId wallet) as [hex | r]; [|simpl; discriminate].
    cbn [snd]. destruct (strictEq chainId (parseInt16 hex)) eqn:S.
    + intros _. exists active, rest, hex.
      split; [reflexivity|]. split; [now apply address_check|].
      split; [reflexivity | exact S].
    + simpl. destruct (strictEq chainId Kovan);
        [discriminate | destruct (strictEq chainId Goerli); discriminate].
  - intros (active & rest & hex & Ha & Hacc & Hc & Hs).
    rewrite (validate_unlocked chainId wallet address active rest Ha Hacc).
    rewrite Hc. cbn [snd]. now rewrite Hs.
Qed.

Lemma validate_passes_iff_witness :
  snd (validateMetamask (ofN 1) (unlockedOn "0xABCDEF" "0x1") "") = Passed.
Proof.
  apply (proj2 (validate_passes_iff (ofN 1) (unlockedOn "0xABCDEF" "0x1") "")).
  exists "0xABCDEF"%string,
         ["0x0000000000000000000000000000000000000001"%string], "0x1"%string.
  repeat split. now left.
Defined.



(** X15. The outcome depends on the given address only through its
    lower-case form: two addresses that differ in letter case alone are
    validated alike, and so is an address and its lower-case form. *)
Theorem validate_ignores_case (chainId : JSNumber) (wallet : WalletStrategy)
    (address address' : string) :
  (toLowerCase address = toLowerCase address' ->
   validateMetamask chainId wallet address
   = validateMetamask chainId wallet address')
  /\ validateMetamask chainId wallet (toLowerCase address)
     = validateMetamask chainId wallet address.
Proof.
  assert (G : forall a b, toLowerCase a = toLowerCase b ->
              validateMetamask chainId wallet a
              = validateMetamask chainId wallet b).
  { intros a b H. unfold validateMetamask.
    now rewrite H, (same_lower_same_emptiness a b H). }
  split; [apply G|]. apply G, toLowerCase_idempotent.
Qed.

Lemma validate_ignores_case_witness :
  validateMetamask Goerli (unlockedOn "0xABCDEF" "0x5") "0xAbCdEf"
  = validateMetamask Goerli (unlockedOn "0xABCDEF" "0x5") "0xabcdef".
Proof.
  apply (proj1 (validate_ignores_case Goerli (unlockedOn "0xABCDEF" "0x5")
                  "0xAbCdEf" "0xabcdef")).
  reflexivity.
Defined.

End MetamaskFacts.

(* ------------------------------------------------------------------ *)
(** ** Evaluations *)

Module Scenarios.
Import Text BN Intl Formatter Observe.

(** The decimal library. *)

Example ofString_decimal :
  ofString "0.00000001" = Finite false 1 (-8)
  /\ ofString "-1.5e3" = Finite true 15 2
  /\ ofString ".5" = Finite false 5 (-1)
  /\ ofString "-Infinity" = Infinity true
  /\ ofString "12a" = NaN
  /\ ofString "." = NaN.
Proof. repeat split. Qed.

Example toFixed_rounding :
  toFixed (ofString "1234.5678") 2 ROUND_DOWN = "1234.56"
  /\ toFixed (ofString "1234.5678") 2 ROUND_HALF_UP = "1234.57"
  /\ toFixed (ofString "-0.001") 2 ROUND_DOWN = "-0.00"
  /\ toFixed (ofString "-0.001") 2 ROUND_UP = "-0.01"
  /\ toFixed (ofString "2.5") 0 ROUND_HALF_EVEN = "2"
  /\ toFixed (ofString "7") 3 ROUND_DOWN = "7.000".
Proof. repeat split. Qed.

Example toFormat_grouping :
  toFormat (ofString "1234567.5678") 3 ROUND_DOWN = "1,234,567.567"
  /\ toFormat (ofString "-1234567.5") 0 ROUND_UP = "-1,234,568"
  /\ toFormat (ofString "999") 1 ROUND_DOWN = "999.0"
  /\ toFormat (Finite false 1 (-8)) 8 ROUND_HALF_UP = "0.00000001".
Proof. repeat split. Qed.

Example toFixedExact_plain :
  toFixedExact (ofString "0.0000000100") = "0.00000001"
  /\ toFixedExact (ofString "1.5e3") = "1500"
  /\ toFixedExact (ofString "-12.50") = "-12.5".
Proof. repeat split. Qed.

Example toNumber_nearest :
  toNumber (ofString "0.1") = Finite false 1 (-1)
  /\ toNumber (ofN 1234455) = ofN 1234455
  /\ toNumber (ofString "9007199254740993") = ofN 9007199254740992
  /\ toNumber (ofString "1.00000000000000000001") = ofN 1
  /\ toNumber (ofString "1e400") = Infinity false
  /\ toNumber (ofString "-1e-400") = Finite true 0 0
  /\ toNumber (ofString "5e-324") = Finite false 5 (-324).
Proof. vm_compute. repeat split. Qed.

(** The compact notation. *)

Example compactFormat_units :
  compactFormat (ofN 999) = "999"
  /\ compactFormat (ofN 1000) = "1K"
  /\ compactFormat (ofN 1234) = "1.2K"
  /\ compactFormat (ofN 12345) = "12K"
  /\ compactFormat (ofN 999999) = "1M"
  /\ compactFormat (ofN 1234455) = "1.2M"
  /\ compactFormat (ofN 1500000000) = "1.5B"
  /\ compactFormat (ofString "1e15") = "1000T"
  /\ compactFormat (ofString "1e16") = "10,000T"
  /\ compactFormat (ofString "-1234455") = "-1.2M"
  /\ compactFormat (ofString "0.00001234") = "0.000012".
Proof. vm_compute. repeat split. Qed.

Example unAbbreviateNumber_units :
  unAbbreviateNumber "1.2M" = Some (Finite false 12000000 (-1))
  /\ unAbbreviateNumber "10,000T" = Some (Finite false 10000000000000000 0)
  /\ unAbbreviateNumber "999" = None
  /\ unAbbreviateNumber "" = None
  /\ unAbbreviateNumber "NaN" = None.
Proof. repeat split. Qed.

Example abbreviateNumber_exact_and_lossy :
  abbreviateNumber (ofN 1200000) = "1.2M"
  /\ abbreviateNumber (ofN 1234455) = approx ++ "1.2M"
  /\ abbreviateNumber (ofString "1e16") = "10,000T"
  /\ abbreviateNumber NaN = approx ++ "NaN".
Proof. vm_compute. repeat split. Qed.

(** The renderings. *)

Example render_zero :
  valueToFixed (Num (ofN 0)) defaultOptions = "0.00"
  /\ valueToString (Num (ofN 0)) defaultOptions = "0.00"
  /\ valueToString Undefined defaultOptions = "0.00".
Proof. repeat split. Qed.

Example render_below_threshold :
  valueToString (Str "0.00000001") (absolutePlaces 4 false) = "< 0.0001"
  /\ valueToString (Str "0.0000000000001") (absolutePlaces 4 true)
     = "< 0.000000000001".
Proof. repeat split. Qed.

Example render_buffered :
  valueWithGasBuffer (Str "0.01") defaultOptions = Finite false 5 (-3)
  /\ valueWithGasBufferToFixed (Str "0.01") defaultOptions = "0.00"
  /\ valueWithGasBuffer (Str "0.004") defaultOptions = ofN 0
  /\ valueWithGasBufferToFixed (Str "0.004") defaultOptions = "0.00"
  /\ valueWithGasBufferToString (Str "1234.5678") defaultOptions = "1,234.56".
Proof. repeat split. Qed.

(** [ROUND_UP] is the number 0, so asking for it gives the default
    mode. *)
Example rounding_mode_zero_is_default :
  roundingMode' (withFee {| decimalPlaces := None;
                            minimalDecimalPlacesOption := None;
                            abbreviationFloor := None; injFee := None;
                            roundingMode := Some ROUND_UP;
                            displayAbsoluteDecimalPlace := None |} None)
  = ROUND_DOWN.
Proof. reflexivity. Qed.

End Scenarios.
